(** * License rendering helpers of [src/license/utils.py]

    A shallow embedding of [_format_links_in_text] and
    [build_license_embeds], with the Python objects they touch:
    - a [str] is the list of its Unicode code points;
    - the [license_details] dictionaries live in a store of mutable
      dictionaries, addressed by reference, so that [dict.copy] and the
      aliasing [display_details = saved_details] are what they are in
      Python;
    - [KeyError] and the errors of [str.format] abort the call and leave
      the store as it was when they were raised. *)

From Stdlib Require Import NArith Ascii String.
From stdpp Require Import base option list gmap fin_maps.

Local Open Scope N_scope.

(** ** Python strings *)

Module PyStr.

(** A Python [str]: its code points. *)
Definition pystr : Type := list N.

(** Literals are written as UTF-8 text and decoded once. *)
Definition byte_val (a : ascii) : N := N_of_ascii a.

Fixpoint utf8_decode (s : string) : pystr :=
  match s with
  | EmptyString => []
  | String a s1 =>
    let b0 := byte_val a in
    if b0 <? 128 then b0 :: utf8_decode s1
    else if b0 <? 224 then
      match s1 with
      | String a1 s2 =>
        ((b0 - 192) * 64 + (byte_val a1 - 128)) :: utf8_decode s2
      | _ => [b0]
      end
    else if b0 <? 240 then
      match s1 with
      | String a1 (String a2 s3) =>
        ((b0 - 224) * 4096 + (byte_val a1 - 128) * 64 + (byte_val a2 - 128))
          :: utf8_decode s3
      | _ => [b0]
      end
    else
      match s1 with
      | String a1 (String a2 (String a3 s4)) =>
        ((b0 - 240) * 262144 + (byte_val a1 - 128) * 4096
         + (byte_val a2 - 128) * 64 + (byte_val a3 - 128))
          :: utf8_decode s4
      | _ => [b0]
      end
  end.

Arguments utf8_decode _%_string : simpl never.
Abbreviation u := utf8_decode.

(** [s.startswith(p)] *)
Fixpoint startswith (p s : pystr) : bool :=
  match p, s with
  | [], _ => true
  | _ :: _, [] => false
  | a :: p1, b :: s1 => (a =? b) && startswith p1 s1
  end.

(** [needle in s] *)
Fixpoint contains (needle s : pystr) : bool :=
  startswith needle s ||
  match s with
  | [] => false
  | _ :: s1 => contains needle s1
  end.

(** [s.endswith(p)] *)
Definition endswith (p s : pystr) : bool := startswith (rev p) (rev s).

(** [s == t] *)
Definition str_eqb (s t : pystr) : bool := bool_decide (s = t).

(** [s.replace(old, new)] for a non-empty [old]: the occurrences of [old]
    are found from left to right and do not overlap; [skip] counts the
    characters of the occurrence just replaced that are still to pass. *)
Fixpoint replace_from (skip : nat) (old new s : pystr) : pystr :=
  match s with
  | [] => []
  | c :: s1 =>
    match skip with
    | S k => replace_from k old new s1
    | O =>
      if startswith old s
      then new ++ replace_from (pred (length old)) old new s1
      else c :: replace_from 0 old new s1
    end
  end.

Definition replace (old new s : pystr) : pystr := replace_from 0 old new s.

(** [Py_UNICODE_ISSPACE]: the characters [\s] matches in a [str] pattern,
    and those [str.strip()] removes. *)
Definition isspace (c : N) : bool :=
  ((9 <=? c) && (c <=? 13)) || ((28 <=? c) && (c <=? 32))
  || (c =? 133) || (c =? 160) || (c =? 5760)
  || ((8192 <=? c) && (c <=? 8202))
  || (c =? 8232) || (c =? 8233) || (c =? 8239) || (c =? 8287)
  || (c =? 12288).

Fixpoint lstrip (s : pystr) : pystr :=
  match s with
  | [] => []
  | c :: s1 => if isspace c then lstrip s1 else s
  end.

(** [s.strip()] *)
Definition strip (s : pystr) : pystr := rev (lstrip (rev (lstrip s))).

(** [sep.join(parts)] *)
Fixpoint join (sep : pystr) (parts : list pystr) : pystr :=
  match parts with
  | [] => []
  | [p] => p
  | p :: rest => p ++ sep ++ join sep rest
  end.

(** Truth value of a [str]. *)
Definition nonempty (s : pystr) : bool :=
  match s with [] => false | _ => true end.

Definition nl : pystr := [10].

End PyStr.
Import PyStr.

(** Literals stay folded in proofs; [vm_compute] evaluates them. *)
#[global] Opaque utf8_decode.

(** ** [_format_links_in_text] *)

Module Links.

(** The class [[^\s<>()]]. *)
Definition url_char (c : N) : bool :=
  negb (isspace c || (c =? 60) || (c =? 62) || (c =? 40) || (c =? 41)).

(** The longest run of [url_char] at the head of [s]. *)
Fixpoint url_run (s : pystr) : pystr :=
  match s with
  | [] => []
  | c :: s1 => if url_char c then c :: url_run s1 else []
  end.

(** [https?://[^\s<>()]+] matched at the head of [s]: the matched text. *)
Definition match_url (s : pystr) : option pystr :=
  if startswith (u "https://") s then
    match url_run (drop 8 s) with
    | [] => None
    | body => Some (u "https://" ++ body)
    end
  else if startswith (u "http://") s then
    match url_run (drop 7 s) with
    | [] => None
    | body => Some (u "http://" ++ body)
    end
  else None.

(** The lookbehind [(?<!\]\()]: [p2 p1] are the two characters before the
    position, in the text being searched. *)
Definition behind_link (p2 p1 : option N) : bool :=
  match p2, p1 with
  | Some a, Some b => (a =? 93) && (b =? 40)
  | _, _ => false
  end.

Definition url_pattern_at (p2 p1 : option N) (s : pystr) : option pystr :=
  if behind_link p2 p1 then None else match_url s.

(** What [url_pattern.sub] sees: the text cut into the matches of the
    pattern, leftmost first and not overlapping, and the characters
    between them. *)
Inductive piece :=
| Lit (c : N)
| Url (url : pystr).

Fixpoint pieces_from (skip : nat) (p2 p1 : option N) (s : pystr) : list piece :=
  match s with
  | [] => []
  | c :: s1 =>
    match skip with
    | S k => pieces_from k p1 (Some c) s1
    | O =>
      match url_pattern_at p2 p1 s with
      | Some url => Url url :: pieces_from (pred (length url)) p1 (Some c) s1
      | None => Lit c :: pieces_from 0 p1 (Some c) s1
      end
    end
  end.

Definition pieces (text : pystr) : list piece := pieces_from 0 None None text.

Definition discord_label : pystr := u "「点击查看 Discord 链接内容」".

(** [re.sub(r'^https?://', '', url)] *)
Definition strip_scheme (url : pystr) : pystr :=
  if startswith (u "https://") url then drop 8 url
  else if startswith (u "http://") url then drop 7 url
  else url.

(** [link_text[:-1]] when [link_text.endswith('/')] *)
Definition strip_slash (link_text : pystr) : pystr :=
  if endswith (u "/") link_text then removelast link_text else link_text.

Definition markdown_link (link_text url : pystr) : pystr :=
  u "[" ++ link_text ++ u "](" ++ url ++ u ")".

Definition replacer (url : pystr) : pystr :=
  if contains (u "discord.com/") url
  then markdown_link discord_label url
  else markdown_link (strip_slash (strip_scheme url)) url.

Definition sub_piece (p : piece) : pystr :=
  match p with
  | Lit c => [c]
  | Url url => replacer url
  end.

Definition raw_piece (p : piece) : pystr :=
  match p with
  | Lit c => [c]
  | Url url => url
  end.

Definition _format_links_in_text (text : pystr) : pystr :=
  if nonempty text then concat (map sub_piece (pieces text)) else text.

End Links.
Import Links.

(** ** Python objects, errors and the store of dictionaries *)

Module Py.

(** The values a [license_details] dictionary holds: a [str] or [None]. *)
Inductive pyval :=
| VStr (s : pystr)
| VNone.

#[global] Instance pyval_eq_dec : EqDecision pyval.
Proof. solve_decision. Defined.

(** How a call ends early. [NotModelled] is not a Python exception: it
    marks a replacement field of [str.format] with a conversion ([!r]), a
    format specification ([:>10]), an attribute ([.name]) or an index
    ([[0]]), whose result this embedding does not compute. *)
Inductive failure :=
| KeyError (key : pystr)
| FormatError
| NotModelled.

Inductive outcome (A : Type) :=
| Ret (a : A)
| Raise (e : failure).
Arguments Ret {A} a.
Arguments Raise {A} e.

Definition omap {A B} (f : A -> B) (o : outcome A) : outcome B :=
  match o with Ret a => Ret (f a) | Raise e => Raise e end.

(** [template.format(license_type=arg)]. [field] is [None] in literal
    text and [Some name] inside a replacement field whose name read so
    far is [name]. [FormatError] stands for the [ValueError] of a lone
    brace, and for the [KeyError] or [IndexError] of a field that is not
    [license_type]. *)
Fixpoint format_go (field : option pystr) (arg s : pystr) {struct s}
  : outcome pystr :=
  match field with
  | None =>
    match s with
    | [] => Ret []
    | c :: s1 =>
      if c =? 123 then
        match s1 with
        | [] => Raise FormatError
        | c1 :: s2 =>
          if c1 =? 123 then omap (cons 123) (format_go None arg s2)
          else format_go (Some []) arg s1
        end
      else if c =? 125 then
        match s1 with
        | [] => Raise FormatError
        | c1 :: s2 =>
          if c1 =? 125 then omap (cons 125) (format_go None arg s2)
          else Raise FormatError
        end
      else omap (cons c) (format_go None arg s1)
    end
  | Some name =>
    match s with
    | [] => Raise FormatError
    | c :: s1 =>
      if c =? 125 then
        if str_eqb name (u "license_type")
        then omap (app arg) (format_go None arg s1)
        else Raise FormatError
      else if c =? 123 then Raise FormatError
      else if (c =? 91) || (c =? 46) || (c =? 33) || (c =? 58)
      then Raise NotModelled
      else format_go (Some (name ++ [c])) arg s1
    end
  end.

Definition py_format (template license_type : pystr) : outcome pystr :=
  format_go None license_type template.

(** A dictionary with [str] keys. *)
Abbreviation dict := (gmap pystr pyval).

(** References to dictionaries, and the store they point into. *)
Abbreviation ref := positive.
Abbreviation store := (gmap positive (gmap pystr pyval)).

(** The dictionary a reference points to. *)
Definition deref (h : store) (r : ref) : dict := default ∅ (h !! r).

(** Computations that read and write the store and may raise. *)
Definition M (A : Type) : Type := store -> outcome A * store.

Definition ret {A} (a : A) : M A := fun h => (Ret a, h).
Definition raise {A} (e : failure) : M A := fun h => (Raise e, h).
Definition bind {A B} (m : M A) (f : A -> M B) : M B :=
  fun h =>
    match m h with
    | (Ret a, h1) => f a h1
    | (Raise e, h1) => (Raise e, h1)
    end.
Definition lift {A} (o : outcome A) : M A := fun h => (o, h).

#[global] Instance M_ret : MRet M := @ret.
#[global] Instance M_bind : MBind M := fun A B f m => bind m f.

(** [d.copy()]: a new dictionary with the items of [d]. *)
Definition dict_copy (d : ref) : M ref :=
  fun h => let r := fresh (dom h) in (Ret r, <[r := deref h d]> h).

(** [d.get(key, dflt)] *)
Definition dict_get (d : ref) (key : pystr) (dflt : pyval) : M pyval :=
  fun h => (Ret (default dflt (deref h d !! key)), h).

(** [d[key]] *)
Definition dict_item (d : ref) (key : pystr) : M pyval :=
  fun h =>
    match deref h d !! key with
    | Some v => (Ret v, h)
    | None => (Raise (KeyError key), h)
    end.

(** [key in d] *)
Definition dict_has (d : ref) (key : pystr) : M bool :=
  fun h => (Ret (bool_decide (is_Some (deref h d !! key))), h).

(** [d[key] = v] *)
Definition dict_set (d : ref) (key : pystr) (v : pyval) : M unit :=
  fun h => (Ret tt, <[d := <[key := v]> (deref h d)]> h).

(** [d.update(other)]: the items of [other] win. *)
Definition dict_update (d : ref) (other : dict) : M unit :=
  fun h => (Ret tt, <[d := other ∪ deref h d]> h).

End Py.
Import Py.

(** ** [build_license_embeds] *)

Module License.

(** [LicenseConfig]: the details dictionary is held by reference. *)
Record LicenseConfig := {
  license_details : ref;
  bot_enabled : bool;
  auto_post : bool;
  require_confirmation : bool }.

(** What the function reads of a [discord.Member]. *)
Record Member := {
  mention : pystr;
  display_name : pystr;
  name : pystr;
  display_avatar_url : pystr }.

Inductive Color := gold | orange | light_grey | blue.

Record EmbedField := {
  field_name : pystr;
  field_value : pyval;
  field_inline : bool }.

(** A [discord.Embed], as far as the function fills it. *)
Record Embed := {
  title : pystr;
  description : option pystr;
  color : Color;
  author_name : option pystr;
  author_icon_url : option pystr;
  fields : list EmbedField;
  footer : option pystr }.

Definition new_embed (t : pystr) (d : option pystr) (c : Color) : Embed :=
  {| title := t; description := d; color := c; author_name := None;
     author_icon_url := None; fields := []; footer := None |}.

Definition set_author (e : Embed) (n icon : pystr) : Embed :=
  {| title := title e; description := description e; color := color e;
     author_name := Some n; author_icon_url := Some icon;
     fields := fields e; footer := footer e |}.

(** [embed.add_field(name=n, value=v, inline=inl)]. The field keeps the
    value that the call passes; what discord.py makes of a value that is
    not a [str] is not part of the sources at hand. *)
Definition add_field (e : Embed) (n : pystr) (v : pyval) (inl : bool) : Embed :=
  {| title := title e; description := description e; color := color e;
     author_name := author_name e; author_icon_url := author_icon_url e;
     fields := fields e ++ [{| field_name := n; field_value := v;
                               field_inline := inl |}];
     footer := footer e |}.

Definition set_footer (e : Embed) (t : pystr) : Embed :=
  {| title := title e; description := description e; color := color e;
     author_name := author_name e; author_icon_url := author_icon_url e;
     fields := fields e; footer := Some t |}.

(** [str(v)], as an f-string interpolates [v]. *)
Definition str_of (v : pyval) : pystr :=
  match v with VStr s => s | VNone => u "None" end.

(** [override or dflt] *)
Definition or_default (override : option pystr) (dflt : pystr) : pystr :=
  match override with
  | Some s => if nonempty s then s else dflt
  | None => dflt
  end.

(** [_format_links_in_text] on a value that may be [None]. *)
Definition format_links (v : pyval) : pyval :=
  match v with
  | VStr s => VStr (_format_links_in_text s)
  | VNone => VNone
  end.

(** [v and v.strip() and v != "无"] *)
Definition has_text (v : pyval) : bool :=
  match v with
  | VStr s => nonempty s && nonempty (strip s) && negb (str_eqb s (u "无"))
  | VNone => false
  end.

Definition custom : pystr := u "custom".
Definition forbidden : pystr := u "禁止".
Definition not_set : pystr := u "未设置".
Definition same_terms : pystr := u "相同的条款".

Fixpoint for_each {A} (l : list A) (body : A -> M unit) : M unit :=
  match l with
  | [] => mret tt
  | x :: rest => body x;; for_each rest body
  end.

(** The state of the local variables after the downgrade logic. *)
Record resolution := {
  saved_details : ref;
  license_type : pyval;
  is_cc_license : bool;
  is_software_license : bool;
  warning_message : option pystr }.

Section Build.

(** The constants of [src.license.constants], which the function only
    reads: the two catalogs, the two signatures and
    [ACTIVE_COMMAND_CONFIG["group"]["name"]]. *)
Variables CC_LICENSES SOFTWARE_LICENSES : gmap pystr (gmap pystr pyval).
Variables SIGNATURE_HELPER SIGNATURE_LICENSE : pystr.
Variable cmd_name : pystr.

(** [v in catalog]; the keys of a catalog are [str]. *)
Definition in_catalog (v : pyval) (catalog : gmap pystr (gmap pystr pyval)) : bool :=
  match v with
  | VStr s => bool_decide (is_Some (catalog !! s))
  | VNone => false
  end.

(** [catalog[v]] *)
Definition catalog_item (catalog : gmap pystr (gmap pystr pyval)) (v : pyval)
  : M (gmap pystr pyval) :=
  match v with
  | VStr s =>
    match catalog !! s with
    | Some entry => mret entry
    | None => raise (KeyError s)
    end
  | VNone => raise (KeyError (u "None"))
  end.

Definition _EFFECTIVENESS_RULES_TEXT : pystr :=
  u "👑 **作者说了算**：作者在任何地方的**亲口声明**或**操作**，其效力**永远高于**本协议。" ++ SIGNATURE_HELPER
  ++ u "仅提供方便工具，作者保留所有的解释权。" ++ nl
  ++ u "🤝 **关于单独授权**：无论本协议如何规定，从**作者**得到的**单独授权**可以不受本协议限制。" ++ nl
  ++ u "🔄 **默认覆盖**：为方便作者管理并避免信息混淆，若无作者额外声明，发布新协议将自动取代**由" ++ SIGNATURE_HELPER
  ++ u "发布的**旧协议。" ++ nl
  ++ u "> **⚠️ 请注意**：从法律上讲，对那些在旧协议有效期内**已经获取**作品的人，其授权通常不可撤销。尽管如此，我们倡导所有用户尊重作者的意愿。".

Definition _CC_DISCLAIMER_TEXT : pystr :=
  u "**⚠️ 关于CC协议的特别说明**" ++ nl
  ++ u "如果创作者在任何地方对本协议添加了**额外规则**，那么这份协议就不再是**标准CC协议**了。" ++ nl
  ++ u "它会变成一份**“长得像CC协议的自定义协议”**，其中的CC链接仅用于解释基础条款。".

(** [license_type.replace("CC BY", "CC BY-NC")] *)
Definition nc_version (license_type : pystr) : pystr :=
  replace (u "CC BY") (u "CC BY-NC") license_type.

(** Modelled from the spec: the keys of [CC_LICENSES], a table of
    [src.license.constants] that is not part of the sources at hand. The
    spec gives its keys the pattern ["CC <letters> <version>"], with the NC
    variant reached by inserting [-NC] after [BY]: a key carries the text
    ["CC BY"]. *)
Definition follows_cc_pattern (license_type : pystr) : bool :=
  contains (u "CC BY") license_type.

Definition downgrade_warning (original_license license_type : pystr) : pystr :=
  u "**⚠️ 协议已自动调整**" ++ nl
  ++ u "由于本服务器禁止商业用途，您误选择的协议 **" ++ original_license ++ u "** "
  ++ u "已被自动调整为 **" ++ license_type ++ u "**。".

(** Lines 196 to 234: the copy of the stored details and the downgrade
    of a license that the server's policy does not allow. *)
Definition resolve_license (config : LicenseConfig) (commercial_use_allowed : bool)
  : M resolution :=
  saved_details ← dict_copy (license_details config);
  license_type ← dict_get saved_details (u "type") (VStr custom);
  let is_cc_license := in_catalog license_type CC_LICENSES in
  let is_software_license := in_catalog license_type SOFTWARE_LICENSES in
  let unchanged :=
    {| saved_details := saved_details; license_type := license_type;
       is_cc_license := is_cc_license;
       is_software_license := is_software_license;
       warning_message := None |} in
  if commercial_use_allowed then mret unchanged
  else if bool_decide (license_type = VStr custom) then
    dict_set saved_details (u "commercial") (VStr forbidden);;
    mret unchanged
  else
    match license_type with
    | VStr original_license =>
      if in_catalog license_type CC_LICENSES
         && negb (contains (u "NC") original_license)
      then
        let potential_nc_version := nc_version original_license in
        if in_catalog (VStr potential_nc_version) CC_LICENSES then
          dict_set saved_details (u "type") (VStr potential_nc_version);;
          mret {| saved_details := saved_details;
                  license_type := VStr potential_nc_version;
                  is_cc_license := true;
                  is_software_license := is_software_license;
                  warning_message :=
                    Some (downgrade_warning original_license
                                            potential_nc_version) |}
        else
          dict_set saved_details (u "type") (VStr custom);;
          dict_set saved_details (u "commercial") (VStr forbidden);;
          mret {| saved_details := saved_details;
                  license_type := VStr custom;
                  is_cc_license := false;
                  is_software_license := is_software_license;
                  warning_message :=
                    Some (downgrade_warning original_license custom) |}
      else mret unchanged
    | VNone => mret unchanged
    end.

(** Lines 237 to 242: the catalog's entry is laid over the details;
    [display_details] is the dictionary [saved_details], not a copy. *)
Definition apply_catalog (r : resolution) : M unit :=
  let display_details := saved_details r in
  if is_cc_license r then
    entry ← catalog_item CC_LICENSES (license_type r);
    dict_update display_details entry
  else if is_software_license r then
    entry ← catalog_item SOFTWARE_LICENSES (license_type r);
    dict_update display_details entry
  else mret tt.

Definition placeholder_replacement (r : resolution) : pystr :=
  if is_cc_license r then str_of (license_type r) else same_terms.

(** The body of the loop of lines 255 to 257. *)
Definition substitute_key (display_details : ref) (replacement key : pystr)
  : M unit :=
  present ← dict_has display_details key;
  if (present : bool) then
    v ← dict_item display_details key;
    match v with
    | VStr template =>
      text ← lift (py_format template replacement);
      dict_set display_details key (VStr text)
    | VNone => mret tt
    end
  else mret tt.

Definition substitute_placeholders (r : resolution) : M unit :=
  for_each [u "reproduce"; u "derive"; u "commercial"]
           (substitute_key (saved_details r) (placeholder_replacement r)).

(** Lines 259 to 269. *)
Definition description_parts (r : resolution) (author : Member)
  : M (list pystr) :=
  let display_details := saved_details r in
  let parts := [u "**发布者: ** " ++ mention author] in
  parts ←
    (if is_cc_license r then
       url ← dict_item display_details (u "url");
       mret (parts ++ [u "本内容采用 **[" ++ str_of (license_type r)
                        ++ u "](" ++ str_of url
                        ++ u ")** 国际许可协议进行许可。"])
     else if is_software_license r then
       url ← dict_item display_details (u "url");
       mret (parts ++ [u "本项目采用 **[" ++ str_of (license_type r)
                        ++ u "](" ++ str_of url
                        ++ u ")** 开源许可证。"])
     else mret parts);
  match warning_message r with
  | Some w =>
    if nonempty w then mret (parts ++ [nl ++ u "> " ++ w]) else mret parts
  | None => mret parts
  end.

(** Truth value of [warning_message]. *)
Definition warned (r : resolution) : bool :=
  match warning_message r with
  | Some w => nonempty w
  | None => false
  end.

(** Lines 288 to 300. *)
Definition add_terms (r : resolution) (main_embed : Embed) : M Embed :=
  let display_details := saved_details r in
  if is_software_license r then
    let main_embed :=
      add_field main_embed (u "📄 协议类型")
                (VStr (u "**" ++ str_of (license_type r) ++ u "** (软件)"))
                false in
    attribution ← dict_get display_details (u "attribution") (VStr not_set);
    let main_embed :=
      add_field main_embed (u "✒️ 版权归属") (format_links attribution) false in
    full_text ← dict_item display_details (u "full_text");
    mret (add_field main_embed (u "📜 核心条款") full_text false)
  else
    let main_embed :=
      if is_cc_license r then
        add_field main_embed (u "📄 协议类型")
                  (VStr (u "**" ++ str_of (license_type r) ++ u "**")) false
      else
        add_field main_embed (u "📄 协议类型") (VStr (u "**自定义协议**")) false in
    attribution ← dict_get display_details (u "attribution") (VStr not_set);
    let main_embed :=
      add_field main_embed (u "✒️ 作者署名") (format_links attribution) false in
    reproduce ← dict_get display_details (u "reproduce") (VStr not_set);
    let main_embed :=
      add_field main_embed (u "🔁 二次传播") (format_links reproduce) true in
    derive ← dict_get display_details (u "derive") (VStr not_set);
    let main_embed :=
      add_field main_embed (u "🎨 二次创作") (format_links derive) true in
    commercial ← dict_get display_details (u "commercial") (VStr not_set);
    mret (add_field main_embed (u "💰 商业用途") (format_links commercial) true).

(** Lines 303 to 307. *)
Definition add_notes (r : resolution) (main_embed : Embed) : M Embed :=
  if negb (is_cc_license r) then
    notes ← dict_get (saved_details r) (u "notes") VNone;
    if has_text notes
    then mret (add_field main_embed (u "📝 附加条款 (如无另外声明，其效力范围同本协议)")
                         (format_links notes) false)
    else mret main_embed
  else mret main_embed.

(** [' ' + '\u2800' * 30] *)
Definition stretcher_value : pystr := 32 :: repeat 10240 30.

Definition default_footer : pystr :=
  SIGNATURE_LICENSE ++ u " | 在自己的帖子里，使用 `/" ++ cmd_name ++ u "` 来使用我吧！".

(** Lines 322 to 340. *)
Definition appendix_embed (r : resolution) : Embed :=
  let appendix_description_parts := [_EFFECTIVENESS_RULES_TEXT] in
  let appendix_description_parts :=
    if is_cc_license r
    then appendix_description_parts ++ [nl ++ nl ++ _CC_DISCLAIMER_TEXT]
    else appendix_description_parts in
  new_embed (u "⚖️ 协议生效规则") (Some (join nl appendix_description_parts))
            light_grey.

(** Lines 346 to 352. *)
Definition postscript_embed (personal_statement : pyval) : Embed :=
  new_embed (u "📣 附言 (无法律效力)") (Some (str_of personal_statement)) blue.

Definition build_license_embeds
    (config : LicenseConfig) (author : Member) (commercial_use_allowed : bool)
    (title_override footer_override : option pystr) (include_appendix : bool)
  : M (list Embed) :=
  r ← resolve_license config commercial_use_allowed;
  let display_details := saved_details r in
  apply_catalog r;;
  substitute_placeholders r;;
  parts ← description_parts r author;
  let main_embed_title := or_default title_override (u "📜 内容授权协议") in
  let main_embed :=
    new_embed main_embed_title
              (match parts with [] => None | _ => Some (join nl parts) end)
              (if negb (warned r) then gold else orange) in
  let main_embed :=
    set_author main_embed
               (u "由 " ++ display_name author ++ u " ("
                ++ name author ++ u ") 发布")
               (display_avatar_url author) in
  main_embed ← add_terms r main_embed;
  main_embed ← add_notes r main_embed;
  let footer_text := or_default footer_override default_footer in
  let main_embed := set_footer main_embed (footer_text ++ stretcher_value) in
  let embeds_to_send := [main_embed] in
  let embeds_to_send :=
    if include_appendix
    then embeds_to_send ++ [appendix_embed r]
    else embeds_to_send in
  personal_statement ← dict_get display_details (u "personal_statement") VNone;
  if has_text personal_statement
  then mret (embeds_to_send ++ [postscript_embed personal_statement])
  else mret embeds_to_send.

End Build.

End License.
Import License.

(** ** The helper panels and the lookup of a view's items *)

Module Panels.

(** The two colors a helper panel takes. *)
Inductive HelperColor := helper_blue | helper_blurple.

(** A [discord.Embed], as far as [create_helper_embed] fills it. *)
Record HelperEmbed := {
  helper_title : pystr;
  helper_description : pystr;
  helper_color : HelperColor;
  helper_footer : pystr }.

(** A child of a [ui.View]: [custom_id] is [None] for an item without
    that attribute, and the attribute's value otherwise; [label] tells
    the items apart. *)
Record Item := {
  custom_id : option pyval;
  label : pystr }.

Record View := { children : list Item }.

(** [hasattr(item, 'custom_id') and item.custom_id == custom_id] *)
Definition has_custom_id (item : Item) (id : pystr) : bool :=
  match custom_id item with
  | Some v => bool_decide (v = VStr id)
  | None => false
  end.

(** The loop of [get_item_by_id] over [view.children]. *)
Fixpoint first_with_id (items : list Item) (id : pystr) : option Item :=
  match items with
  | [] => None
  | item :: rest =>
    if has_custom_id item id then Some item else first_with_id rest id
  end.

Definition get_item_by_id (view : View) (id : pystr) : option Item :=
  first_with_id (children view) id.

Section Panel.

(** [SIGNATURE_HELPER], [ACTIVE_COMMAND_CONFIG["group"]["name"]] and
    [ACTIVE_COMMAND_CONFIG["panel"]["name"]] of [src.license.constants]. *)
Variable SIGNATURE_HELPER : pystr.
Variables cmd_name cmd_name_panel : pystr.

Definition build_footer_text (signature : pystr) : pystr :=
  signature ++ u " | 如果按钮失效(服务器重启、超时)，请使用 `/" ++ cmd_name ++ u " "
  ++ cmd_name_panel ++ u "`".

(** [color] is [None] when the caller leaves the default. *)
Definition create_helper_embed (title description : pystr)
           (color : option HelperColor) : HelperEmbed :=
  {| helper_title := title;
     helper_description := description;
     helper_color := default helper_blue color;
     helper_footer := build_footer_text SIGNATURE_HELPER |}.

Definition build_settings_embed (config : LicenseConfig) : HelperEmbed :=
  let description_parts := [] in
  let enabled_emoji :=
    if bot_enabled config then u "✅ 启用" else u "❌ 禁用" in
  let description_parts :=
    description_parts ++ [u "**机器人总开关**: " ++ enabled_emoji] in
  let description_parts :=
    description_parts ++ [u "> 控制机器人在你发新帖时是否会自动出现。关闭后，你需要使用 `/内容授权 打开面板` 手动召唤我。"] in
  let description_parts := description_parts ++ [u "---"] in
  let auto_post_emoji :=
    if auto_post config then u "✅ 启用" else u "❌ 禁用" in
  let description_parts :=
    description_parts ++ [u "**自动发布默认协议**: " ++ auto_post_emoji] in
  let description_parts :=
    description_parts ++ [u "> 启用后，当机器人出现时，将直接尝试发布你的默认协议，而不会显示一系列交互按钮让你选择。"] in
  let description_parts := description_parts ++ [u "---"] in
  let confirm_emoji :=
    if require_confirmation config then u "✅ 启用" else u "❌ 禁用" in
  let description_parts :=
    description_parts ++ [u "**发布前二次确认**: " ++ confirm_emoji] in
  let description_parts :=
    description_parts ++ [u "> 启用后，在发布任何协议前（包括自动发布），都会先让你预览并点击确认。"] in
  let description_parts :=
    description_parts ++ [nl ++ u "完成后，点击下方的“关闭面板”即可。（不关也行，保存是实时的，就是不够优雅，懂吧？）"] in
  create_helper_embed (u "⚙️ 机器人设置详解") (join nl description_parts)
                      (Some helper_blurple).

End Panel.

End Panels.
Import Panels.

(** ** A seeded catalog and configuration, for concrete runs *)

Module Sample.

Definition cc_entry (url reproduce derive commercial : pystr) : gmap pystr pyval :=
  {[ u "url" := VStr url;
     u "reproduce" := VStr reproduce;
     u "derive" := VStr derive;
     u "commercial" := VStr commercial ]}.

Definition CC : gmap pystr (gmap pystr pyval) :=
  {[ u "CC BY 4.0" :=
       cc_entry (u "https://creativecommons.org/licenses/by/4.0/")
                (u "allowed") (u "allowed") (u "allowed");
     u "CC BY-NC 4.0" :=
       cc_entry (u "https://creativecommons.org/licenses/by-nc/4.0/")
                (u "allowed") (u "allowed") (u "禁止");
     u "CC BY-NC-SA 4.0" :=
       cc_entry (u "https://creativecommons.org/licenses/by-nc-sa/4.0/")
                (u "allowed") (u "allowed under {license_type}") (u "禁止");
     u "CC BY-ND 4.0" :=
       cc_entry (u "https://creativecommons.org/licenses/by-nd/4.0/")
                (u "allowed") (u "禁止") (u "allowed") ]}.

Definition SOFTWARE : gmap pystr (gmap pystr pyval) :=
  {[ u "MIT" :=
       {[ u "url" := VStr (u "https://opensource.org/license/mit");
          u "full_text" := VStr (u "Permission is hereby granted") ]} ]}.

Definition HELPER : pystr := u "helper".
Definition LICENSE : pystr := u "license".
Definition cmd : pystr := u "license".

Definition author : Member :=
  {| mention := u "<@1>"; display_name := u "Ann"; name := u "ann";
     display_avatar_url := u "https://cdn.example/a.png" |}.

(** The configuration object, its details stored at reference 1. *)
Definition config : LicenseConfig :=
  {| license_details := 1%positive; bot_enabled := true;
     auto_post := false; require_confirmation := false |}.

Definition store_of (details : gmap pystr pyval) : gmap positive (gmap pystr pyval) :=
  {[ 1%positive := details ]}.

Definition build (details : gmap pystr pyval) (commercial_use_allowed : bool)
    (include_appendix : bool) :=
  build_license_embeds CC SOFTWARE HELPER LICENSE cmd config author
                       commercial_use_allowed None None include_appendix
                       (store_of details).

(** The sections a run returned, and the fields of its main section. *)
Definition result_of (run : outcome (list Embed) * gmap positive (gmap pystr pyval))
  : list Embed :=
  match run.1 with
  | Ret embeds => embeds
  | Raise _ => []
  end.

Definition main_fields_of
    (run : outcome (list Embed) * gmap positive (gmap pystr pyval))
  : option (list EmbedField) :=
  match run.1 with
  | Ret (main :: _) => Some (fields main)
  | _ => None
  end.

(** A software catalog whose entry has no [full_text]. *)
Definition SOFTWARE_bare : gmap pystr (gmap pystr pyval) :=
  {[ u "MIT" := {[ u "url" := VStr (u "https://opensource.org/license/mit") ]} ]}.

(** A CC catalog with a key outside the pattern of the spec, the one the
    comment of line 223 looks ahead to. *)
Definition CC_with_cc0 : gmap pystr (gmap pystr pyval) :=
  {[ u "CC0 1.0" :=
       cc_entry (u "https://creativecommons.org/publicdomain/zero/1.0/")
                (u "allowed") (u "allowed") (u "allowed") ]}.

(** Stored details. *)
Definition cc0 : gmap pystr pyval := {[ u "type" := VStr (u "CC0 1.0") ]}.

Definition cc_by : gmap pystr pyval := {[ u "type" := VStr (u "CC BY 4.0") ]}.

Definition cc_by_nc_sa : gmap pystr pyval :=
  {[ u "type" := VStr (u "CC BY-NC-SA 4.0");
     u "personal_statement" := VStr (u "thanks for reading") ]}.

Definition for_a_fee : gmap pystr pyval :=
  {[ u "commercial" := VStr (u "allowed for a fee") ]}.

Definition proprietary : gmap pystr pyval :=
  {[ u "type" := VStr (u "proprietary");
     u "commercial" := VStr (u "allowed for a fee") ]}.

Definition mit : gmap pystr pyval := {[ u "type" := VStr (u "MIT") ]}.

(** The resolution of [cc_by_nc_sa], and its details after the overlay. *)
Definition resolved_nc_sa : resolution :=
  {| saved_details := 2%positive;
     license_type := VStr (u "CC BY-NC-SA 4.0");
     is_cc_license := true;
     is_software_license := false;
     warning_message := None |}.

Definition overlaid_nc_sa : gmap pystr pyval :=
  default ∅ (CC !! u "CC BY-NC-SA 4.0") ∪ cc_by_nc_sa.

(** The catalog entry of [CC BY-NC 4.0]. *)
Definition nc_entry : gmap pystr pyval :=
  cc_entry (u "https://creativecommons.org/licenses/by-nc/4.0/")
           (u "allowed") (u "allowed") (u "禁止").

(** Details of a CC license that carry notes and a term of their own. *)
Definition cc_with_notes : gmap pystr pyval :=
  {[ u "type" := VStr (u "CC BY-NC 4.0");
     u "notes" := VStr (u "ask me first");
     u "commercial" := VStr (u "allowed") ]}.

(** A custom license whose term names a field [str.format] is not given. *)
Definition bad_template : gmap pystr pyval :=
  {[ u "reproduce" := VStr (u "share {freely}") ]}.

(** A custom license whose statement is white space. *)
Definition blank_statement : gmap pystr pyval :=
  {[ u "personal_statement" := VStr (u "   ") ]}.

(** What the downgrade leaves of [cc_by], and its resolution. *)
Definition downgraded_cc_by : gmap pystr pyval :=
  <[ u "type" := VStr (u "CC BY-NC 4.0") ]> cc_by.

Definition resolved_cc_by : resolution :=
  {| saved_details := 2%positive;
     license_type := VStr (u "CC BY-NC 4.0");
     is_cc_license := true;
     is_software_license := false;
     warning_message :=
       Some (downgrade_warning (u "CC BY 4.0") (u "CC BY-NC 4.0")) |}.

(** The resolutions of [cc_with_notes] and of a custom license. *)
Definition resolved_nc : resolution :=
  {| saved_details := 2%positive;
     license_type := VStr (u "CC BY-NC 4.0");
     is_cc_license := true;
     is_software_license := false;
     warning_message := None |}.

Definition resolved_custom : resolution :=
  {| saved_details := 2%positive;
     license_type := VStr custom;
     is_cc_license := false;
     is_software_license := false;
     warning_message := None |}.

(** A software catalog that shares a key with [CC], and details of that
    type. *)
Definition SOFTWARE_dual : gmap pystr (gmap pystr pyval) :=
  {[ u "CC BY-NC 4.0" :=
       {[ u "url" := VStr (u "https://creativecommons.org/licenses/by-nc/4.0/");
          u "full_text" := VStr (u "Attribution-NonCommercial 4.0") ]} ]}.

Definition cc_by_nc : gmap pystr pyval :=
  {[ u "type" := VStr (u "CC BY-NC 4.0") ]}.

End Sample.

(** The end-to-end examples 3 and 4 of the spec. *)
Example ex3 :
  _format_links_in_text (u "Check https://discord.com/channels/1/2/3 now")
  = u "Check [「点击查看 Discord 链接内容」](https://discord.com/channels/1/2/3) now".
Proof. vm_compute. reflexivity. Qed.

Example ex4 :
  _format_links_in_text (u "See https://example.com/page/")
  = u "See [example.com/page](https://example.com/page/)".
Proof. vm_compute. reflexivity. Qed.


(** * Properties *)

(** ** Strings *)

Section StringFacts.

Lemma startswith_prefix (p s : pystr) :
  startswith p s = true ↔ p `prefix_of` s.
Proof.
  revert s. induction p as [|a p IH]; intros s; simpl.
  - split; [intros _; apply prefix_nil | done].
  - destruct s as [|b s].
    + split; [done | intros [k Hk]; discriminate].
    + rewrite andb_true_iff, IH, N.eqb_eq. split.
      * intros [-> Hp]. by apply prefix_cons.
      * intros [k Hk]. simplify_eq/=. split; [done | by exists k].
Qed.

Lemma startswith_app (p t : pystr) : startswith p (p ++ t) = true.
Proof. apply startswith_prefix. by exists t. Qed.

Lemma startswith_drop (p s : pystr) :
  startswith p s = true → s = p ++ drop (length p) s.
Proof.
  intros [k ->]%startswith_prefix. by rewrite drop_app_length.
Qed.

Lemma contains_infix (needle s : pystr) :
  contains needle s = true ↔ ∃ a b, s = a ++ needle ++ b.
Proof.
  induction s as [|c s IH]; simpl.
  - rewrite orb_false_r, startswith_prefix. split.
    + intros [k Hk]. by exists [], k.
    + intros (a & b & Hab). destruct a; [by exists b | discriminate].
  - rewrite orb_true_iff, startswith_prefix, IH. split.
    + intros [[k Hk] | (a & b & ->)]; [by exists [], k | by exists (c :: a), b].
    + intros (a & b & Hab). destruct a as [|c' a]; simpl in Hab.
      * left. by exists b.
      * right. simplify_eq. by exists a, b.
Qed.

(** [replace]: passing over [skip] characters is dropping them. *)
Lemma replace_from_skip (old new s : pystr) : ∀ skip,
  replace_from skip old new s = replace_from 0 old new (drop skip s).
Proof.
  induction s as [|c s IH]; intros [|k]; simpl; by rewrite ?IH.
Qed.

(** A replacement by a longer text never shortens. *)
Lemma replace_length_ge (old new : pystr) :
  old ≠ [] → (length old ≤ length new)%nat →
  ∀ n s, (length s ≤ n)%nat →
         (length s ≤ length (replace_from 0 old new s))%nat.
Proof.
  intros Hold Hlen. induction n as [|n IH]; intros [|c s] Hn; simpl in *;
    try lia.
  destruct (startswith old (c :: s)) eqn:E.
  - apply startswith_prefix in E as [k Hk].
    destruct old as [|c1 old]; [done |]. simplify_eq/=.
    rewrite length_app, replace_from_skip, drop_app_length, length_app.
    rewrite length_app in Hn. specialize (IH k). lia.
  - simpl. specialize (IH s). lia.
Qed.

(** A replacement by a strictly longer text changes a text in which the
    old one occurs. *)
Lemma replace_changes (old new s : pystr) :
  old ≠ [] → (length old < length new)%nat →
  contains old s = true → replace old new s ≠ s.
Proof.
  intros Hold Hlen Hc Heq. apply (f_equal length) in Heq. revert Hc Heq.
  unfold replace. induction s as [|c s IH]; simpl.
  - rewrite orb_false_r. intros [k Hk]%startswith_prefix.
    destruct old; [done | discriminate].
  - destruct (startswith old (c :: s)) eqn:E; simpl.
    + intros _. apply startswith_prefix in E as [k Hk].
      destruct old as [|c1 old]; [done |]. simplify_eq/=.
      rewrite length_app, replace_from_skip, drop_app_length, length_app.
      pose proof (replace_length_ge _ new Hold (Nat.lt_le_incl _ _ Hlen)
                                    (length k) k (le_n _)).
      simpl in *. lia.
    + intros Hc Heq. apply IH; [done | lia].
Qed.

(** A text in which the old one does not occur is left as it is. *)
Lemma replace_absent (old new s : pystr) :
  contains old s = false → replace old new s = s.
Proof.
  unfold replace. induction s as [|c s IH]; simpl; [done |].
  intros [E Hc]%orb_false_iff. rewrite E. by rewrite IH.
Qed.

(** An occurrence at the head is replaced, and the search goes on after
    it. *)
Lemma replace_head (old new rest : pystr) :
  old ≠ [] → replace old new (old ++ rest) = new ++ replace old new rest.
Proof.
  intros Hold. unfold replace. destruct old as [|c old]; [done |].
  change ((c :: old) ++ rest) with (c :: (old ++ rest)).
  cbn [replace_from].
  change (c :: old ++ rest) with ((c :: old) ++ rest).
  rewrite startswith_app. cbn [length pred].
  by rewrite replace_from_skip, drop_app_length.
Qed.

Lemma contains_app_l (p s t : pystr) :
  contains p s = true → contains p (s ++ t) = true.
Proof.
  rewrite !contains_infix. intros (a & b & ->). exists a, (b ++ t).
  by rewrite <- !app_assoc.
Qed.

Lemma contains_app_r (p s t : pystr) :
  contains p t = true → contains p (s ++ t) = true.
Proof.
  rewrite !contains_infix. intros (a & b & ->). exists (s ++ a), b.
  by rewrite <- !app_assoc.
Qed.

Lemma contains_trans (p q s : pystr) :
  contains p q = true → contains q s = true → contains p s = true.
Proof.
  rewrite !contains_infix. intros (a & b & ->) (a1 & b1 & ->).
  exists (a1 ++ a), (b ++ b1). by rewrite <- !app_assoc.
Qed.

(** Where the old text occurred, the new one does after the replacement. *)
Lemma replace_contains_new (old new s : pystr) :
  old ≠ [] → contains old s = true → contains new (replace old new s) = true.
Proof.
  intros Hold. unfold replace. induction s as [|c s IH]; simpl.
  - rewrite orb_false_r. intros [k Hk]%startswith_prefix.
    destruct old; [done | discriminate].
  - destruct (startswith old (c :: s)) eqn:E; simpl.
    + intros _. apply contains_infix. by exists [], (replace_from (Init.Nat.pred (length old)) old new s).
    + intros Hc. rewrite (IH Hc). apply orb_true_r.
Qed.

End StringFacts.

(** ** [str.format] *)

(** A text without braces. *)
Definition brace_free (s : pystr) : bool :=
  forallb (λ c, negb ((c =? 123) || (c =? 125))) s.

Section FormatFacts.

Lemma omap_omap {A B C} (f : A → B) (g : B → C) (o : outcome A) :
  omap g (omap f o) = omap (g ∘ f) o.
Proof. by destruct o. Qed.

Lemma omap_ext {A B} (f g : A → B) (o : outcome A) :
  (∀ a, f a = g a) → omap f o = omap g o.
Proof. intros E. destruct o; simpl; by rewrite ?E. Qed.

(** Literal text is copied. *)
Lemma format_literal (arg s rest : pystr) :
  brace_free s = true →
  format_go None arg (s ++ rest) = omap (app s) (format_go None arg rest).
Proof.
  induction s as [|c s IH]; simpl.
  - intros _. by destruct (format_go None arg rest).
  - intros [Hc Hs]%andb_true_iff.
    apply negb_true_iff, orb_false_iff in Hc as [-> ->].
    rewrite IH, omap_omap by done. by apply omap_ext.
Qed.

(** The placeholder is replaced by the argument. *)
Lemma format_placeholder (arg rest : pystr) :
  format_go None arg (u "{license_type}" ++ rest)
  = omap (app arg) (format_go None arg rest).
Proof.
  assert (u "{license_type}"
          = [123; 108; 105; 99; 101; 110; 115; 101; 95; 116; 121; 112; 101; 125])
    as -> by (by vm_compute).
  assert (str_eqb [108; 105; 99; 101; 110; 115; 101; 95; 116; 121; 112; 101]
                  (u "license_type") = true) as E by (by vm_compute).
  cbn [app format_go N.eqb Pos.eqb orb]. by rewrite E.
Qed.

Lemma py_format_placeholder (pre post arg : pystr) :
  brace_free pre = true →
  py_format (pre ++ u "{license_type}" ++ post) arg
  = omap (app (pre ++ arg)) (py_format post arg).
Proof.
  intros Hpre. unfold py_format.
  rewrite format_literal, format_placeholder, omap_omap by done.
  apply omap_ext. intros a. simpl. by rewrite app_assoc.
Qed.

Lemma py_format_plain (s arg : pystr) :
  brace_free s = true → py_format s arg = Ret s.
Proof.
  intros Hs. unfold py_format.
  rewrite <- (app_nil_r s) at 1. rewrite format_literal by done.
  simpl. by rewrite app_nil_r.
Qed.

(** Whether a call returned. *)
Definition returns {A} (o : outcome A) : bool :=
  match o with Ret _ => true | Raise _ => false end.

Lemma returns_omap {A B} (f : A → B) (o : outcome A) :
  returns (omap f o) = returns o.
Proof. by destruct o. Qed.

Lemma returns_true {A} (o : outcome A) :
  returns o = true → ∃ a, o = Ret a.
Proof. destruct o; [eauto | done]. Qed.

(** Whether [str.format] accepts a template does not depend on the
    argument. *)
Lemma format_go_returns (arg arg1 : pystr) : ∀ n s field,
  (length s ≤ n)%nat →
  returns (format_go field arg s) = returns (format_go field arg1 s).
Proof.
  induction n as [|n IH]; intros [|c s] field Hn; simpl in Hn; try lia;
    try (by destruct field).
  destruct field as [name|]; simpl.
  - destruct (c =? 125).
    + destruct (str_eqb name (u "license_type")); [| done].
      rewrite !returns_omap. apply IH. lia.
    + destruct (c =? 123); [done |].
      destruct ((c =? 91) || (c =? 46) || (c =? 33) || (c =? 58)); [done |].
      apply IH. lia.
  - destruct (c =? 123).
    + destruct s as [|c1 s2]; [done |]. simpl in Hn.
      destruct (c1 =? 123).
      * rewrite !returns_omap. apply IH. lia.
      * apply IH. simpl. lia.
    + destruct (c =? 125).
      * destruct s as [|c1 s2]; [done |]. simpl in Hn.
        destruct (c1 =? 125); [| done].
        rewrite !returns_omap. apply IH. lia.
      * rewrite !returns_omap. apply IH. lia.
Qed.

(** A template that [str.format] accepts, decided on one argument. *)
Definition template_ok (template : pystr) : bool :=
  returns (py_format template []).

Lemma template_ok_format (template arg : pystr) :
  template_ok template = true → ∃ text, py_format template arg = Ret text.
Proof.
  unfold template_ok, py_format. intros Hok. apply returns_true.
  by rewrite (format_go_returns arg [] (length template)).
Qed.

End FormatFacts.

(** ** [_format_links_in_text] *)

Section LinkFacts.

Lemma url_run_prefix (s : pystr) : url_run s `prefix_of` s.
Proof.
  induction s as [|c s IH]; simpl; [done |].
  destruct (url_char c); [by apply prefix_cons | apply prefix_nil].
Qed.

Lemma url_run_chars (s : pystr) : forallb url_char (url_run s) = true.
Proof.
  induction s as [|c s IH]; simpl; [done |].
  destruct (url_char c) eqn:E; simpl; [by rewrite E | done].
Qed.

(** A match is a scheme followed by a non-empty run of URL characters,
    and is the text at the position of the match. *)
Lemma match_url_inv (s url : pystr) :
  match_url s = Some url →
  ∃ scheme body,
    (scheme = u "https://" ∨ scheme = u "http://")
    ∧ url = scheme ++ body ∧ body ≠ []
    ∧ forallb url_char body = true
    ∧ url `prefix_of` s.
Proof.
  unfold match_url. intros H.
  destruct (startswith (u "https://") s) eqn:E8.
  - destruct (url_run (drop 8 s)) as [|c body] eqn:Er; [done |].
    injection H as <-. exists (u "https://"), (c :: body).
    repeat apply conj; [by left | done | done | | ].
    + rewrite <- Er. apply url_run_chars.
    + pose proof (startswith_drop _ _ E8) as Hs.
      change (length _) with 8%nat in Hs. rewrite Hs.
      apply prefix_app. rewrite <- Er. apply url_run_prefix.
  - destruct (startswith (u "http://") s) eqn:E7; [| done].
    destruct (url_run (drop 7 s)) as [|c body] eqn:Er; [done |].
    injection H as <-. exists (u "http://"), (c :: body).
    repeat apply conj; [by right | done | done | | ].
    + rewrite <- Er. apply url_run_chars.
    + pose proof (startswith_drop _ _ E7) as Hs.
      change (length _) with 7%nat in Hs. rewrite Hs.
      apply prefix_app. rewrite <- Er. apply url_run_prefix.
Qed.

Lemma url_pattern_at_inv p2 p1 (s url : pystr) :
  url_pattern_at p2 p1 s = Some url → match_url s = Some url.
Proof. unfold url_pattern_at. by destruct (behind_link p2 p1). Qed.

(** The pieces are the text, cut. *)
Lemma pieces_from_raw (s : pystr) : ∀ skip p2 p1,
  concat (map raw_piece (pieces_from skip p2 p1 s)) = drop skip s.
Proof.
  induction s as [|c s IH]; intros skip p2 p1; simpl.
  - by destruct skip.
  - destruct skip as [|k]; [| by rewrite IH].
    destruct (url_pattern_at p2 p1 (c :: s)) as [url|] eqn:E; simpl.
    + rewrite IH.
      apply url_pattern_at_inv, match_url_inv in E
        as (scheme & body & Hs & -> & Hb & _ & [k Hk]).
      destruct (scheme ++ body) as [|c1 url1] eqn:Hu.
      { by apply app_eq_nil in Hu as [_ ?]. }
      injection Hk as -> ->. simpl. by rewrite drop_app_length.
    + by rewrite IH.
Qed.

Lemma pieces_from_url (s : pystr) : ∀ skip p2 p1 url,
  Url url ∈ pieces_from skip p2 p1 s → ∃ s1, match_url s1 = Some url.
Proof.
  induction s as [|c s IH]; intros skip p2 p1 url; simpl.
  - by intros ?%elem_of_nil.
  - destruct skip as [|k]; [| by apply IH].
    destruct (url_pattern_at p2 p1 (c :: s)) as [url1|] eqn:E.
    + intros [?|?]%elem_of_cons; [| by eapply IH].
      simplify_eq. eauto using url_pattern_at_inv.
    + intros [?|?]%elem_of_cons; [done | by eapply IH].
Qed.

Lemma strip_scheme_https (body : pystr) :
  strip_scheme (u "https://" ++ body) = body.
Proof.
  unfold strip_scheme. rewrite startswith_app.
  with_strategy transparent [utf8_decode]
    (change 8%nat with (length (u "https://"))).
  apply drop_app_length.
Qed.

Lemma strip_scheme_http (body : pystr) :
  strip_scheme (u "http://" ++ body) = body.
Proof.
  unfold strip_scheme.
  replace (startswith (u "https://") (u "http://" ++ body)) with false
    by (vm_compute; reflexivity).
  rewrite startswith_app.
  with_strategy transparent [utf8_decode]
    (change 7%nat with (length (u "http://"))).
  apply drop_app_length.
Qed.

Lemma strip_slash_spec (link_text : pystr) :
  (∃ l, link_text = l ++ u "/" ∧ strip_slash link_text = l)
  ∨ ((∀ l, link_text ≠ l ++ u "/") ∧ strip_slash link_text = link_text).
Proof.
  unfold strip_slash, endswith.
  destruct (startswith (rev (u "/")) (rev link_text)) eqn:E.
  - left. apply startswith_prefix in E as [k Hk].
    exists (rev k). apply (f_equal (@rev N)) in Hk.
    rewrite rev_involutive, rev_app_distr, rev_involutive in Hk.
    split; [done |]. rewrite Hk.
    with_strategy transparent [utf8_decode] (apply removelast_last).
  - right. split; [| done]. intros l ->.
    rewrite rev_app_distr in E. by rewrite startswith_app in E.
Qed.

End LinkFacts.

(** The pieces cut the text, and a piece that is a match is a scheme
    ([https://] or [http://]) followed by URL characters, replaced by the
    Markdown link [[label](url)]. Which parts of a text are matches is the
    matter of [bare_url_becomes_link] below. *)
Lemma matched_pieces_are_links (text : pystr) :
  concat (map raw_piece (pieces text)) = text
  ∧ _format_links_in_text text = concat (map sub_piece (pieces text))
  ∧ ∀ url, Url url ∈ pieces text →
      ∃ scheme body label,
        (scheme = u "https://" ∨ scheme = u "http://")
        ∧ url = scheme ++ body ∧ body ≠ [] ∧ forallb url_char body = true
        ∧ sub_piece (Url url) = u "[" ++ label ++ u "](" ++ url ++ u ")"
        ∧ (if contains (u "discord.com/") url
           then label = discord_label
           else (∃ l, body = l ++ u "/" ∧ label = l)
                ∨ ((∀ l, body ≠ l ++ u "/") ∧ label = body)).
Proof.
  split_and!.
  - unfold pieces. by rewrite pieces_from_raw.
  - unfold _format_links_in_text. by destruct text.
  - intros url [s1 Hm]%pieces_from_url.
    apply match_url_inv in Hm as (scheme & body & Hs & -> & Hb & Hc & _).
    exists scheme, body. simpl. unfold replacer.
    destruct (contains (u "discord.com/") (scheme ++ body)).
    + exists discord_label. by split_and!.
    + exists (strip_slash (strip_scheme (scheme ++ body))).
      split_and!; [done..|].
      replace (strip_scheme (scheme ++ body)) with body
        by (by destruct Hs as [-> | ->];
              [rewrite strip_scheme_https | rewrite strip_scheme_http]).
      destruct (strip_slash_spec body) as [(l & ? & ?) | [? ?]]; eauto.
Qed.

(** C5 (fails on the code). Beautifying twice is not beautifying once: a
    URL that carries a second scheme inside it, as the links of a web
    archive do, is wrapped once by the first pass; the second pass then
    wraps the inner URL, in the label and in the target, although the
    target follows [](]. The same happens in one pass to a Markdown link
    the author wrote by hand. *)
Theorem format_links_twice :
  let text := u "https://web.archive.org/web/2020/https://example.com/" in
  let once :=
    u "[web.archive.org/web/2020/https://example.com](https://web.archive.org/web/2020/https://example.com/)" in
  _format_links_in_text text = once
  ∧ _format_links_in_text once
    = u "[web.archive.org/web/2020/[example.com]](https://example.com])(https://web.archive.org/web/2020/[example.com](https://example.com/))"
  ∧ _format_links_in_text once ≠ once
  ∧ _format_links_in_text
      (u "[archive](https://web.archive.org/web/2020/https://example.com/)")
    = u "[archive](https://web.archive.org/web/2020/[example.com](https://example.com/))".
Proof. vm_compute. repeat split; discriminate. Qed.

(** ** The store *)

Section StoreFacts.

Lemma deref_insert_eq (h : gmap positive (gmap pystr pyval)) r d :
  deref (<[r := d]> h) r = d.
Proof. unfold deref. by rewrite lookup_insert_eq. Qed.

Lemma deref_insert_ne (h : gmap positive (gmap pystr pyval)) r r1 d :
  r ≠ r1 → deref (<[r := d]> h) r1 = deref h r1.
Proof. intros. unfold deref. by rewrite lookup_insert_ne. Qed.

Lemma fresh_ref_unused (h : gmap positive (gmap pystr pyval)) :
  h !! fresh (dom h) = None.
Proof. apply not_elem_of_dom, is_fresh. Qed.

Lemma run_bind {A B} (m : M A) (f : A → M B) h :
  (m ≫= f) h =
  match m h with
  | (Ret a, h1) => f a h1
  | (Raise e, h1) => (Raise e, h1)
  end.
Proof. done. Qed.

Lemma run_bind_ret {A B} (m : M A) (f : A → M B) h a h1 :
  m h = (Ret a, h1) → (m ≫= f) h = f a h1.
Proof. intros E. by rewrite run_bind, E. Qed.

Lemma run_bind_raise {A B} (m : M A) (f : A → M B) h e h1 :
  m h = (Raise e, h1) → (m ≫= f) h = (Raise e, h1).
Proof. intros E. by rewrite run_bind, E. Qed.

(** A bind that returns went through a first step that returned. *)
Lemma run_bind_inv {A B} (m : M A) (f : A → M B) h b h2 :
  (m ≫= f) h = (Ret b, h2) →
  ∃ a h1, m h = (Ret a, h1) ∧ f a h1 = (Ret b, h2).
Proof.
  rewrite run_bind. destruct (m h) as [[a|e] h1]; [eauto | done].
Qed.

(** Computations that leave the store as it is. *)
Definition read_only {A} (m : M A) : Prop := ∀ h, (m h).2 = h.

Lemma read_only_ret {A} (a : A) : read_only (mret a).
Proof. done. Qed.

Lemma read_only_raise {A} e : read_only (raise (A:=A) e).
Proof. done. Qed.

Lemma read_only_lift {A} (o : outcome A) : read_only (lift o).
Proof. done. Qed.

Lemma read_only_bind {A B} (m : M A) (f : A → M B) :
  read_only m → (∀ a, read_only (f a)) → read_only (m ≫= f).
Proof.
  intros Hm Hf h. rewrite run_bind. specialize (Hm h).
  destruct (m h) as [[a|e] h1]; simpl in Hm; subst; [apply Hf | done].
Qed.

Lemma read_only_dict_get d key dflt : read_only (dict_get d key dflt).
Proof. done. Qed.

Lemma read_only_dict_item d key : read_only (dict_item d key).
Proof. intros h. unfold dict_item. by destruct (deref h d !! key). Qed.

Lemma read_only_dict_has d key : read_only (dict_has d key).
Proof. done. Qed.

(** Computations that write to the dictionary at [r] only. *)
Definition local_to {A} (r : ref) (m : M A) : Prop :=
  ∀ h d, ∃ d1, (m (<[r := d]> h)).2 = <[r := d1]> h.

Lemma local_read_only {A} r (m : M A) : read_only m → local_to r m.
Proof. intros Hm h d. exists d. apply Hm. Qed.

Lemma local_bind {A B} r (m : M A) (f : A → M B) :
  local_to r m → (∀ a, local_to r (f a)) → local_to r (m ≫= f).
Proof.
  intros Hm Hf h d. rewrite run_bind. destruct (Hm h d) as [d1 Hd1].
  destruct (m (<[r := d]> h)) as [[a|e] h1]; simpl in Hd1; subst.
  - apply Hf.
  - by exists d1.
Qed.

Lemma local_dict_set r key v : local_to r (dict_set r key v).
Proof.
  intros h d. eexists. unfold dict_set. simpl.
  by rewrite deref_insert_eq, insert_insert_eq.
Qed.

Lemma local_dict_update r other : local_to r (dict_update r other).
Proof.
  intros h d. eexists. unfold dict_update. simpl.
  by rewrite deref_insert_eq, insert_insert_eq.
Qed.

Lemma local_for_each {A} r (l : list A) (body : A → M unit) :
  (∀ x, local_to r (body x)) → local_to r (for_each l body).
Proof.
  intros Hb. induction l as [|x l IH]; simpl.
  - apply local_read_only, read_only_ret.
  - apply local_bind; [apply Hb | done].
Qed.

End StoreFacts.

Create HintDb pystore.
#[local] Hint Resolve read_only_ret read_only_raise read_only_lift
  read_only_dict_get read_only_dict_item read_only_dict_has : pystore.
#[local] Hint Resolve local_dict_set local_dict_update : pystore.

(** Symbolic execution of a computation at a store. *)
Ltac py_run :=
  repeat first
    [ rewrite run_bind
    | progress cbn beta iota zeta delta [for_each negb andb orb]
    | progress unfold dict_copy, dict_get, dict_set, dict_item, dict_has,
                      dict_update, mret, M_ret, ret, raise, lift
    | rewrite deref_insert_eq
    | rewrite insert_insert_eq ].

(** ** The downgrade logic *)

Section BuildFacts.

Variables CC_LICENSES SOFTWARE_LICENSES : gmap pystr (gmap pystr pyval).
Variables SIGNATURE_HELPER SIGNATURE_LICENSE : pystr.
Variable cmd_name : pystr.

Local Abbreviation resolve := (resolve_license CC_LICENSES SOFTWARE_LICENSES).
Local Abbreviation overlay := (apply_catalog CC_LICENSES SOFTWARE_LICENSES).
Local Abbreviation build :=
  (build_license_embeds CC_LICENSES SOFTWARE_LICENSES SIGNATURE_HELPER
                        SIGNATURE_LICENSE cmd_name).

(** The stored type, [custom] when there is none. *)
Definition stored_type (d : gmap pystr pyval) : pyval :=
  default (VStr custom) (d !! u "type").

Lemma resolve_allowed config h :
  let d := deref h (license_details config) in
  resolve config true h =
  (Ret {| saved_details := fresh (dom h);
          license_type := stored_type d;
          is_cc_license := in_catalog (stored_type d) CC_LICENSES;
          is_software_license := in_catalog (stored_type d) SOFTWARE_LICENSES;
          warning_message := None |},
   <[fresh (dom h) := d]> h).
Proof. unfold resolve_license. by py_run. Qed.

Lemma resolve_custom config h :
  let d := deref h (license_details config) in
  stored_type d = VStr custom →
  resolve config false h =
  (Ret {| saved_details := fresh (dom h);
          license_type := VStr custom;
          is_cc_license := in_catalog (VStr custom) CC_LICENSES;
          is_software_license := in_catalog (VStr custom) SOFTWARE_LICENSES;
          warning_message := None |},
   <[fresh (dom h) := <[u "commercial" := VStr forbidden]> d]> h).
Proof.
  intros d Hty. unfold resolve_license. py_run.
  fold d. fold (stored_type d). rewrite Hty.
  rewrite bool_decide_eq_true_2 by done. by py_run.
Qed.

(** The cases of a disallowed commercial use that change nothing. *)
Lemma resolve_unchanged config h :
  let d := deref h (license_details config) in
  stored_type d ≠ VStr custom →
  (∀ t, stored_type d = VStr t →
        in_catalog (VStr t) CC_LICENSES && negb (contains (u "NC") t) = false) →
  resolve config false h = resolve config true h.
Proof.
  intros d Hty Hnc. rewrite resolve_allowed. unfold resolve_license. py_run.
  fold d. fold (stored_type d).
  rewrite bool_decide_eq_false_2 by done.
  destruct (stored_type d) as [t|] eqn:Et; [| done].
  by rewrite (Hnc t eq_refl).
Qed.

Lemma resolve_nc_sibling config h t :
  let d := deref h (license_details config) in
  stored_type d = VStr t → t ≠ custom →
  is_Some (CC_LICENSES !! t) → contains (u "NC") t = false →
  is_Some (CC_LICENSES !! nc_version t) →
  resolve config false h =
  (Ret {| saved_details := fresh (dom h);
          license_type := VStr (nc_version t);
          is_cc_license := true;
          is_software_license := in_catalog (VStr t) SOFTWARE_LICENSES;
          warning_message := Some (downgrade_warning t (nc_version t)) |},
   <[fresh (dom h) := <[u "type" := VStr (nc_version t)]> d]> h).
Proof.
  intros d Hty Hc Hcc Hnc Hsib. unfold resolve_license. py_run.
  fold d. fold (stored_type d). rewrite Hty.
  rewrite bool_decide_eq_false_2 by congruence.
  unfold in_catalog at 1. rewrite bool_decide_eq_true_2, Hnc by done.
  cbn [andb negb]. unfold in_catalog at 1.
  rewrite bool_decide_eq_true_2 by done. by py_run.
Qed.

Lemma resolve_fallback config h t :
  let d := deref h (license_details config) in
  stored_type d = VStr t → t ≠ custom →
  is_Some (CC_LICENSES !! t) → contains (u "NC") t = false →
  CC_LICENSES !! nc_version t = None →
  resolve config false h =
  (Ret {| saved_details := fresh (dom h);
          license_type := VStr custom;
          is_cc_license := false;
          is_software_license := in_catalog (VStr t) SOFTWARE_LICENSES;
          warning_message := Some (downgrade_warning t custom) |},
   <[fresh (dom h) :=
       <[u "commercial" := VStr forbidden]> (<[u "type" := VStr custom]> d)]> h).
Proof.
  intros d Hty Hc Hcc Hnc Hsib. unfold resolve_license. py_run.
  fold d. fold (stored_type d). rewrite Hty.
  rewrite bool_decide_eq_false_2 by congruence.
  unfold in_catalog at 1. rewrite bool_decide_eq_true_2, Hnc by done.
  cbn [andb negb]. unfold in_catalog at 1.
  rewrite bool_decide_eq_false_2 by (rewrite Hsib; by intros [? ?]).
  by py_run.
Qed.

(** What the downgrade logic does to the stored details [d]: the
    effective type, whether it is a CC license, the warning, and the
    details after it. *)
Inductive downgrade (d : gmap pystr pyval) (allowed : bool)
  : pyval → bool → option pystr → gmap pystr pyval → Prop :=
| downgrade_none :
    allowed = true
    ∨ (stored_type d ≠ VStr custom
       ∧ ∀ t, stored_type d = VStr t →
              in_catalog (VStr t) CC_LICENSES && negb (contains (u "NC") t)
              = false) →
    downgrade d allowed (stored_type d)
              (in_catalog (stored_type d) CC_LICENSES) None d
| downgrade_custom :
    allowed = false → stored_type d = VStr custom →
    downgrade d allowed (VStr custom)
              (in_catalog (VStr custom) CC_LICENSES) None
              (<[u "commercial" := VStr forbidden]> d)
| downgrade_sibling t :
    allowed = false → stored_type d = VStr t → t ≠ custom →
    is_Some (CC_LICENSES !! t) → contains (u "NC") t = false →
    is_Some (CC_LICENSES !! nc_version t) →
    downgrade d allowed (VStr (nc_version t)) true
              (Some (downgrade_warning t (nc_version t)))
              (<[u "type" := VStr (nc_version t)]> d)
| downgrade_fallback t :
    allowed = false → stored_type d = VStr t → t ≠ custom →
    is_Some (CC_LICENSES !! t) → contains (u "NC") t = false →
    CC_LICENSES !! nc_version t = None →
    downgrade d allowed (VStr custom) false
              (Some (downgrade_warning t custom))
              (<[u "commercial" := VStr forbidden]>
                 (<[u "type" := VStr custom]> d)).

(** [resolve_license] always returns, and returns a downgrade. *)
Lemma resolve_downgrade config allowed h :
  let d := deref h (license_details config) in
  ∃ ty cc w d1,
    downgrade d allowed ty cc w d1
    ∧ resolve config allowed h =
      (Ret {| saved_details := fresh (dom h);
              license_type := ty;
              is_cc_license := cc;
              is_software_license := in_catalog (stored_type d) SOFTWARE_LICENSES;
              warning_message := w |},
       <[fresh (dom h) := d1]> h).
Proof.
  intros d. destruct allowed.
  { do 4 eexists. split; [apply downgrade_none; by left |].
    apply resolve_allowed. }
  destruct (decide (stored_type d = VStr custom)) as [Hc|Hc].
  { do 4 eexists. split; [by apply downgrade_custom |].
    rewrite resolve_custom by done. by rewrite Hc. }
  assert (downgrade d false (stored_type d)
                    (in_catalog (stored_type d) CC_LICENSES) None d
          → ∃ ty cc w d1,
              downgrade d false ty cc w d1
              ∧ resolve config false h =
                (Ret {| saved_details := fresh (dom h);
                        license_type := ty;
                        is_cc_license := cc;
                        is_software_license :=
                          in_catalog (stored_type d) SOFTWARE_LICENSES;
                        warning_message := w |},
                 <[fresh (dom h) := d1]> h)) as Hsame.
  { intros Hdg. do 4 eexists. split; [exact Hdg |].
    inversion Hdg as [[?|[? Hnc]]| | |]; try done.
    by rewrite resolve_unchanged, resolve_allowed. }
  assert ((∃ t, stored_type d = VStr t) ∨ stored_type d = VNone)
    as [[t Ht] | Ht] by (destruct (stored_type d); eauto).
  2:{ apply Hsame, downgrade_none. right. split; [done |].
      intros t. by rewrite Ht. }
  destruct (in_catalog (VStr t) CC_LICENSES && negb (contains (u "NC") t))
    eqn:Hd.
  2:{ apply Hsame, downgrade_none. right. split; [done |].
      intros t1. rewrite Ht. by intros [= <-]. }
  apply andb_true_iff in Hd as [Hcc Hnc].
  apply bool_decide_eq_true in Hcc. apply negb_true_iff in Hnc.
  assert (t ≠ custom) by congruence.
  destruct (CC_LICENSES !! nc_version t) as [e|] eqn:Hs.
  - do 4 eexists. split; [by apply (downgrade_sibling d false t) |].
    rewrite (resolve_nc_sibling config h t); fold d; rewrite ?Ht, ?Hs; done.
  - do 4 eexists. split; [by apply (downgrade_fallback d false t) |].
    rewrite (resolve_fallback config h t); fold d; rewrite ?Ht; done.
Qed.

Lemma downgrade_cc d allowed ty w d1 :
  downgrade d allowed ty true w d1 →
  ∃ t e, ty = VStr t ∧ CC_LICENSES !! t = Some e.
Proof.
  assert (∀ v, in_catalog v CC_LICENSES = true →
               ∃ t e, v = VStr t ∧ CC_LICENSES !! t = Some e) as Hin.
  { intros [t|] Hv; [| done]. apply bool_decide_eq_true in Hv as [e He].
    eauto. }
  inversion 1 as [? Hcc|? ? Hcc|t ? ? ? ? ? [e He]|]; subst; eauto.
Qed.

Lemma downgrade_other_keys d allowed ty cc w d1 key :
  downgrade d allowed ty cc w d1 →
  key ≠ u "type" → key ≠ u "commercial" → d1 !! key = d !! key.
Proof.
  inversion 1; subst; intros; by rewrite ?lookup_insert_ne by congruence.
Qed.

Lemma downgrade_warning_nonempty original license_type :
  nonempty (downgrade_warning original license_type) = true.
Proof. by vm_compute. Qed.

(** ** The catalog overlay *)

Lemma overlay_cc r t e h d :
  is_cc_license r = true → license_type r = VStr t →
  CC_LICENSES !! t = Some e →
  overlay r (<[saved_details r := d]> h)
  = (Ret tt, <[saved_details r := e ∪ d]> h).
Proof.
  intros Hcc Ht He. unfold apply_catalog, catalog_item.
  rewrite Hcc, Ht, He. by py_run.
Qed.

Lemma overlay_software r t e h d :
  is_cc_license r = false → is_software_license r = true →
  license_type r = VStr t → SOFTWARE_LICENSES !! t = Some e →
  overlay r (<[saved_details r := d]> h)
  = (Ret tt, <[saved_details r := e ∪ d]> h).
Proof.
  intros Hcc Hsw Ht He. unfold apply_catalog, catalog_item.
  rewrite Hcc, Hsw, Ht, He. by py_run.
Qed.

Lemma overlay_custom r h :
  is_cc_license r = false → is_software_license r = false →
  overlay r h = (Ret tt, h).
Proof. intros Hcc Hsw. unfold apply_catalog. by rewrite Hcc, Hsw. Qed.

Lemma overlay_local r : local_to (saved_details r) (overlay r).
Proof.
  unfold apply_catalog, catalog_item.
  destruct (is_cc_license r), (is_software_license r), (license_type r) as [t|];
    repeat first [ apply local_bind; [| intros ?]
                 | match goal with |- context [?c !! t] => destruct (c !! t) end
                 | by auto using local_read_only with pystore ].
Qed.

(** ** The placeholders *)

Definition term_keys : list pystr := [u "reproduce"; u "derive"; u "commercial"].

Lemma term_keys_NoDup : NoDup term_keys.
Proof. apply (bool_decide_unpack _). by vm_compute. Qed.

(** The value of a term after the substitution. *)
Definition subst_value (replacement : pystr) (o : option pyval)
  : outcome (option pyval) :=
  match o with
  | Some (VStr template) =>
    omap (λ text, Some (VStr text)) (py_format template replacement)
  | _ => Ret o
  end.

Lemma substitute_key_run r0 replacement key d h :
  substitute_key r0 replacement key (<[r0 := d]> h) =
  match subst_value replacement (d !! key) with
  | Ret (Some v) => (Ret tt, <[r0 := <[key := v]> d]> h)
  | Ret None => (Ret tt, <[r0 := d]> h)
  | Raise e => (Raise e, <[r0 := d]> h)
  end.
Proof.
  unfold substitute_key. py_run.
  destruct (d !! key) as [[template|]|] eqn:E; cbn [subst_value].
  - rewrite bool_decide_eq_true_2 by eauto. py_run. rewrite E.
    destruct (py_format template replacement); by py_run.
  - rewrite bool_decide_eq_true_2 by eauto. py_run. rewrite E.
    py_run. by rewrite (insert_id d key VNone).
  - rewrite bool_decide_eq_false_2 by (by intros [? ?]). by py_run.
Qed.

Lemma substitute_key_local r0 replacement key :
  local_to r0 (substitute_key r0 replacement key).
Proof.
  intros h d. rewrite substitute_key_run.
  destruct (subst_value replacement (d !! key)) as [[v|]|]; eauto.
Qed.

(** What the loop over [keys] does to the dictionary. *)
Definition substituted (keys : list pystr) (replacement : pystr)
           (d d3 : gmap pystr pyval) : Prop :=
  ∀ key,
    (key ∈ keys → subst_value replacement (d !! key) = Ret (d3 !! key))
    ∧ (key ∉ keys → d3 !! key = d !! key).

Lemma subst_value_insert (replacement : pystr) (d : gmap pystr pyval)
      (k key : pystr) (v : pyval) :
  k ≠ key →
  subst_value replacement (<[k := v]> d !! key)
  = subst_value replacement (d !! key).
Proof. intros. by rewrite lookup_insert_ne. Qed.

Lemma for_each_substitute_inv r0 replacement keys : ∀ d h h3,
  NoDup keys →
  for_each keys (substitute_key r0 replacement) (<[r0 := d]> h) = (Ret tt, h3) →
  ∃ d3, h3 = <[r0 := d3]> h ∧ substituted keys replacement d d3.
Proof.
  induction keys as [|k keys IH]; intros d h h3 Hnd; cbn [for_each].
  - intros [= <-]. exists d. split; [done |]. intros key. split; [| done].
    by intros ?%elem_of_nil.
  - apply NoDup_cons in Hnd as [Hk Hnd].
    rewrite run_bind, substitute_key_run.
    destruct (subst_value replacement (d !! k)) as [[v|]|] eqn:Ek; [| | done].
    + intros (d3 & -> & Hd3)%IH; [| done]. exists d3. split; [done |].
      intros key. destruct (Hd3 key) as [Hin Hout].
      destruct (decide (key = k)) as [->|Hne].
      * split; [| intros []; left].
        intros _. by rewrite Ek, Hout, lookup_insert_eq.
      * split.
        -- intros [?|?]%elem_of_cons; [done |].
           rewrite <- Hin by done. by rewrite lookup_insert_ne.
        -- intros ?%not_elem_of_cons. rewrite Hout by tauto.
           by rewrite lookup_insert_ne.
    + intros (d3 & -> & Hd3)%IH; [| done]. exists d3. split; [done |].
      intros key. destruct (Hd3 key) as [Hin Hout].
      destruct (decide (key = k)) as [->|Hne].
      * split; [| intros []; left].
        intros _. rewrite Ek, Hout by done.
        destruct (d !! k) as [[template|]|]; cbn in Ek; [| done..].
        by destruct (py_format template replacement).
      * split.
        -- by intros [?|?]%elem_of_cons; [| apply Hin].
        -- intros ?%not_elem_of_cons. apply Hout. tauto.
Qed.

Lemma for_each_substitute_returns r0 replacement keys : ∀ d h,
  (∀ key, key ∈ keys → ∃ v, subst_value replacement (d !! key) = Ret v) →
  NoDup keys →
  ∃ d3, for_each keys (substitute_key r0 replacement) (<[r0 := d]> h)
        = (Ret tt, <[r0 := d3]> h).
Proof.
  induction keys as [|k keys IH]; intros d h Hok Hnd; cbn [for_each].
  - by exists d.
  - apply NoDup_cons in Hnd as [Hk Hnd].
    rewrite run_bind, substitute_key_run.
    destruct (Hok k) as [v Hv]; [left |]. rewrite Hv.
    destruct v as [v|]; apply IH; try done.
    + intros key Hkey. rewrite subst_value_insert by (by intros ->).
      apply Hok. by right.
    + intros key Hkey. apply Hok. by right.
Qed.

Lemma substitute_inv r h d h3 :
  substitute_placeholders r (<[saved_details r := d]> h) = (Ret tt, h3) →
  ∃ d3, h3 = <[saved_details r := d3]> h
        ∧ substituted term_keys (placeholder_replacement r) d d3.
Proof. apply for_each_substitute_inv, term_keys_NoDup. Qed.

Lemma substitute_local r : local_to (saved_details r) (substitute_placeholders r).
Proof. apply local_for_each. intros key. apply substitute_key_local. Qed.

(** ** The main section *)

Definition field (n : pystr) (v : pyval) (inl : bool) : EmbedField :=
  {| field_name := n; field_value := v; field_inline := inl |}.

(** What is displayed for [key]: its value, or the placeholder when the
    key is absent, with its links beautified. *)
Definition shown (d : gmap pystr pyval) (key : pystr) : pyval :=
  format_links (default (VStr not_set) (d !! key)).

(** The fields of lines 288 to 300, read off the working dictionary. *)
Definition license_fields (r : resolution) (d : gmap pystr pyval)
  : list EmbedField :=
  if is_software_license r then
    [ field (u "📄 协议类型")
            (VStr (u "**" ++ str_of (license_type r) ++ u "** (软件)")) false;
      field (u "✒️ 版权归属") (shown d (u "attribution")) false;
      field (u "📜 核心条款") (default VNone (d !! u "full_text")) false ]
  else
    [ (if is_cc_license r
       then field (u "📄 协议类型")
                  (VStr (u "**" ++ str_of (license_type r) ++ u "**")) false
       else field (u "📄 协议类型") (VStr (u "**自定义协议**")) false);
      field (u "✒️ 作者署名") (shown d (u "attribution")) false;
      field (u "🔁 二次传播") (shown d (u "reproduce")) true;
      field (u "🎨 二次创作") (shown d (u "derive")) true;
      field (u "💰 商业用途") (shown d (u "commercial")) true ].

(** The field of lines 303 to 307. *)
Definition notes_fields (r : resolution) (d : gmap pystr pyval)
  : list EmbedField :=
  let notes := default VNone (d !! u "notes") in
  if negb (is_cc_license r) && has_text notes
  then [ field (u "📝 附加条款 (如无另外声明，其效力范围同本协议)") (format_links notes) false ]
  else [].

Definition add_fields (e : Embed) (fs : list EmbedField) : Embed :=
  fold_left (λ e f, add_field e (field_name f) (field_value f) (field_inline f))
            fs e.

Lemma add_fields_app e fs gs :
  add_fields (add_fields e fs) gs = add_fields e (fs ++ gs).
Proof. unfold add_fields. by rewrite fold_left_app. Qed.

Lemma add_fields_fields e fs : fields (add_fields e fs) = fields e ++ fs.
Proof.
  revert e. induction fs as [|[n v i] fs IH]; intros e; simpl.
  - by rewrite app_nil_r.
  - rewrite IH. simpl. by rewrite <- app_assoc.
Qed.

Lemma add_fields_color e fs : color (add_fields e fs) = color e.
Proof. revert e. induction fs as [|f fs IH]; intros e; simpl; [done | by rewrite IH]. Qed.


Lemma add_fields_description e fs : description (add_fields e fs) = description e.
Proof. revert e. induction fs as [|f fs IH]; intros e; simpl; [done | by rewrite IH]. Qed.

Lemma add_terms_run r e h :
  let d := deref h (saved_details r) in
  add_terms r e h =
  if is_software_license r && bool_decide (d !! u "full_text" = None)
  then (Raise (KeyError (u "full_text")), h)
  else (Ret (add_fields e (license_fields r d)), h).
Proof.
  intros d. unfold add_terms, license_fields, shown.
  destruct (is_software_license r); cbn [andb].
  - py_run. fold d. case_bool_decide as E.
    + by rewrite E.
    + destruct (d !! u "full_text"); [reflexivity | done].
  - py_run. by destruct (is_cc_license r).
Qed.

Lemma add_notes_run r e h :
  add_notes r e h
  = (Ret (add_fields e (notes_fields r (deref h (saved_details r)))), h).
Proof.
  unfold add_notes, notes_fields. destruct (is_cc_license r); [reflexivity |].
  py_run. cbn [negb andb].
  match goal with |- context [has_text ?x] => destruct (has_text x) end;
    reflexivity.
Qed.

(** The lines of the description: the author, the license sentence of a
    catalog license, the warning. *)
Definition warning_lines (r : resolution) : list pystr :=
  match warning_message r with
  | Some w => if nonempty w then [nl ++ u "> " ++ w] else []
  | None => []
  end.

Definition license_sentence (r : resolution) (d : gmap pystr pyval)
  : list pystr :=
  let url := str_of (default VNone (d !! u "url")) in
  if is_cc_license r then
    [u "本内容采用 **[" ++ str_of (license_type r) ++ u "]("
       ++ url ++ u ")** 国际许可协议进行许可。"]
  else if is_software_license r then
    [u "本项目采用 **[" ++ str_of (license_type r) ++ u "]("
       ++ url ++ u ")** 开源许可证。"]
  else [].

Lemma description_parts_run r author h :
  let d := deref h (saved_details r) in
  description_parts r author h =
  if (is_cc_license r || is_software_license r)
     && bool_decide (d !! u "url" = None)
  then (Raise (KeyError (u "url")), h)
  else (Ret ([u "**发布者: ** " ++ mention author] ++ license_sentence r d
             ++ warning_lines r), h).
Proof.
  intros d. unfold description_parts, warning_lines, license_sentence.
  destruct (is_cc_license r); [| destruct (is_software_license r)];
    cbn [orb andb]; py_run; fold d.
  1,2: case_bool_decide as E; [by rewrite E |];
       destruct (d !! u "url") as [url|]; [| done]; py_run;
       destruct (warning_message r) as [w|]; [destruct (nonempty w) |];
       by rewrite ?app_nil_r.
  destruct (warning_message r) as [w|]; [destruct (nonempty w) |]; done.
Qed.

Lemma description_parts_read_only r author :
  read_only (description_parts r author).
Proof.
  intros h. rewrite description_parts_run. by destruct (_ && _).
Qed.

Lemma add_terms_read_only r e : read_only (add_terms r e).
Proof. intros h. rewrite add_terms_run. by destruct (_ && _). Qed.

Lemma add_notes_read_only r e : read_only (add_notes r e).
Proof. intros h. by rewrite add_notes_run. Qed.

(** ** The whole call *)

(** The main section, read off the working dictionary [d] as the
    substitution left it. *)
Definition main_section (r : resolution) (author : Member)
           (title_override footer_override : option pystr)
           (d : gmap pystr pyval) : Embed :=
  set_footer
    (add_fields
       (set_author
          (new_embed (or_default title_override (u "📜 内容授权协议"))
                     (Some (join nl ([u "**发布者: ** " ++ mention author]
                                       ++ license_sentence r d
                                       ++ warning_lines r)))
                     (if negb (warned r) then gold else orange))
          (u "由 " ++ display_name author ++ u " ("
           ++ name author ++ u ") 发布")
          (display_avatar_url author))
       (license_fields r d ++ notes_fields r d))
    (or_default footer_override (default_footer SIGNATURE_LICENSE cmd_name)
     ++ stretcher_value).

(** The postscript section, when there is one. *)
Definition postscript_sections (d : gmap pystr pyval) : list Embed :=
  let personal_statement := default VNone (d !! u "personal_statement") in
  if has_text personal_statement
  then [postscript_embed personal_statement]
  else [].

Definition appendix_sections (r : resolution) (include_appendix : bool)
  : list Embed :=
  if include_appendix then [appendix_embed SIGNATURE_HELPER r] else [].

(** The call, once the three phases that write have run. *)
Lemma build_run config author allowed title_override footer_override
      include_appendix h r d1 d2 d3 :
  resolve config allowed h = (Ret r, <[saved_details r := d1]> h) →
  overlay r (<[saved_details r := d1]> h)
    = (Ret tt, <[saved_details r := d2]> h) →
  substitute_placeholders r (<[saved_details r := d2]> h)
    = (Ret tt, <[saved_details r := d3]> h) →
  build config author allowed title_override footer_override
        include_appendix h
  = if (is_cc_license r || is_software_license r)
       && bool_decide (d3 !! u "url" = None)
    then (Raise (KeyError (u "url")), <[saved_details r := d3]> h)
    else if is_software_license r
            && bool_decide (d3 !! u "full_text" = None)
    then (Raise (KeyError (u "full_text")), <[saved_details r := d3]> h)
    else (Ret ([main_section r author title_override footer_override d3]
                 ++ appendix_sections r include_appendix
                 ++ postscript_sections d3),
          <[saved_details r := d3]> h).
Proof.
  intros Hres Hov Hsub. unfold build_license_embeds.
  rewrite (run_bind_ret _ _ _ _ _ Hres).
  rewrite (run_bind_ret _ _ _ _ _ Hov).
  rewrite (run_bind_ret _ _ _ _ _ Hsub).
  rewrite run_bind, description_parts_run, deref_insert_eq.
  destruct ((is_cc_license r || is_software_license r)
            && bool_decide (d3 !! u "url" = None)); [done |].
  rewrite run_bind, add_terms_run, deref_insert_eq.
  destruct (is_software_license r && bool_decide (d3 !! u "full_text" = None));
    [done |].
  rewrite run_bind, add_notes_run, deref_insert_eq.
  rewrite run_bind. unfold dict_get at 1. rewrite deref_insert_eq.
  unfold main_section, postscript_sections, appendix_sections.
  rewrite add_fields_app.
  destruct (has_text (default VNone (d3 !! u "personal_statement")));
    destruct include_appendix; reflexivity.
Qed.

(** The store after a call: the old one and the working copy. *)
Lemma build_store config author allowed title_override footer_override
      include_appendix h :
  ∃ d3, (build config author allowed title_override footer_override
               include_appendix h).2 = <[fresh (dom h) := d3]> h.
Proof.
  destruct (resolve_downgrade config allowed h) as (ty & cc & w & d1 & _ & Hres).
  unfold build_license_embeds. rewrite (run_bind_ret _ _ _ _ _ Hres).
  match goal with
  | |- ∃ d3, (?m (<[?r0 := d1]> h)).2 = _ =>
    assert (local_to r0 m) as Hloc; [| apply Hloc]
  end.
  apply local_bind; [apply overlay_local | intros _].
  apply local_bind; [apply substitute_local | intros _].
  apply local_read_only.
  apply read_only_bind; [apply description_parts_read_only | intros parts].
  apply read_only_bind; [apply add_terms_read_only | intros e1].
  apply read_only_bind; [apply add_notes_read_only | intros e2].
  apply read_only_bind; [apply read_only_dict_get | intros ps].
  destruct (has_text ps); apply read_only_ret.
Qed.

(** A call that returns has gone through the three phases, and returns
    the sections read off the working copy. *)
Lemma build_inv config author allowed title_override footer_override
      include_appendix h embeds h1 :
  build config author allowed title_override footer_override
        include_appendix h = (Ret embeds, h1) →
  ∃ r d1 d2 d3,
    saved_details r = fresh (dom h)
    ∧ resolve config allowed h = (Ret r, <[fresh (dom h) := d1]> h)
    ∧ overlay r (<[fresh (dom h) := d1]> h) = (Ret tt, <[fresh (dom h) := d2]> h)
    ∧ substituted term_keys (placeholder_replacement r) d2 d3
    ∧ h1 = <[fresh (dom h) := d3]> h
    ∧ ((is_cc_license r || is_software_license r = true) → is_Some (d3 !! u "url"))
    ∧ embeds = [main_section r author title_override footer_override d3]
                 ++ appendix_sections r include_appendix
                 ++ postscript_sections d3.
Proof.
  intros Hb.
  destruct (resolve_downgrade config allowed h) as (ty & cc & w & d1 & _ & Hres).
  match type of Hres with _ = (Ret ?r0, _) => set (r := r0) in * end.
  change (<[fresh (dom h) := d1]> h) with (<[saved_details r := d1]> h) in Hres.
  change (fresh (dom h)) with (saved_details r).
  pose proof Hb as Hb1. unfold build_license_embeds in Hb1.
  rewrite (run_bind_ret _ _ _ _ _ Hres) in Hb1.
  apply run_bind_inv in Hb1 as ([] & h2 & Hov & Hb1).
  destruct (overlay_local r h d1) as [d2 Hd2]. rewrite Hov in Hd2.
  simpl in Hd2. subst h2.
  apply run_bind_inv in Hb1 as ([] & h3 & Hsub & _).
  apply substitute_inv in Hsub as Hsub1. destruct Hsub1 as (d3 & -> & Hd3).
  rewrite (build_run _ _ _ _ _ _ _ _ _ _ _ Hres Hov Hsub) in Hb.
  exists r, d1, d2, d3.
  destruct ((is_cc_license r || is_software_license r)
            && bool_decide (d3 !! u "url" = None)) eqn:Hurl; [done |].
  destruct (is_software_license r && bool_decide (d3 !! u "full_text" = None));
    [done |].
  injection Hb as <- <-. repeat apply conj; try done.
  intros Hcat. rewrite Hcat in Hurl. cbn [andb] in Hurl.
  apply bool_decide_eq_false in Hurl. by apply not_eq_None_Some.
Qed.

Lemma main_section_color r author title_override footer_override d :
  color (main_section r author title_override footer_override d)
  = if warned r then orange else gold.
Proof.
  unfold main_section. cbn [set_footer color]. rewrite add_fields_color.
  by destruct (warned r).
Qed.

Lemma main_section_fields r author title_override footer_override d :
  fields (main_section r author title_override footer_override d)
  = license_fields r d ++ notes_fields r d.
Proof.
  unfold main_section. cbn [set_footer fields]. by rewrite add_fields_fields.
Qed.


Lemma main_section_description r author title_override footer_override d :
  description (main_section r author title_override footer_override d)
  = Some (join nl ([u "**发布者: ** " ++ mention author]
                     ++ license_sentence r d ++ warning_lines r)).
Proof.
  unfold main_section. cbn [set_footer description].
  by rewrite add_fields_description.
Qed.

(** The warning of a resolution is never the empty string. *)
Lemma resolve_warned config allowed h r h0 :
  resolve config allowed h = (Ret r, h0) →
  warned r = bool_decide (is_Some (warning_message r))
  ∧ warning_lines r
    = match warning_message r with
      | Some w => [nl ++ u "> " ++ w]
      | None => []
      end.
Proof.
  destruct (resolve_downgrade config allowed h) as (ty & cc & w & d1 & Hdg & ->).
  intros [= <- _]. unfold warned, warning_lines. cbn [warning_message].
  inversion Hdg; subst; by rewrite ?downgrade_warning_nonempty.
Qed.

(** ** The claims about the downgrade *)

Lemma stored_type_lookup (d : gmap pystr pyval) v :
  d !! u "type" = Some v → stored_type d = v.
Proof. unfold stored_type. by intros ->. Qed.

Lemma cc_by_not_custom t : contains (u "CC BY") t = true → t ≠ custom.
Proof. intros Hc ->. by vm_compute in Hc. Qed.

Lemma nc_not_custom t : contains (u "NC") t = true → t ≠ custom.
Proof. intros Hc ->. by vm_compute in Hc. Qed.

Lemma nc_version_changes t : contains (u "CC BY") t = true → nc_version t ≠ t.
Proof.
  intros Hc. apply replace_changes; [| | done].
  - intros E. by vm_compute in E.
  - vm_compute. lia.
Qed.

(** X17. A stored CC license without the NC marker whose name holds
    [CC BY] ([follows_cc_pattern]) is downgraded when commercial use is
    not allowed: to its NC sibling [nc_version t] when the catalog has
    it, and otherwise to [custom] with the commercial term forced to
    forbidden. Both ways a warning naming the two licenses is recorded,
    the main section of a call that returns is orange and ends its
    description with the warning, and the effective type is never the
    stored one. *)
Theorem commercial_cc_is_downgraded
    config author title_override footer_override include_appendix h t :
  let d := deref h (license_details config) in
  d !! u "type" = Some (VStr t) →
  is_Some (CC_LICENSES !! t) →
  contains (u "NC") t = false →
  follows_cc_pattern t = true →
  ∃ r d1 w,
    resolve config false h = (Ret r, <[fresh (dom h) := d1]> h)
    ∧ license_type r ≠ VStr t
    ∧ d1 !! u "type" = Some (license_type r)
    ∧ warning_message r = Some w
    ∧ ((is_Some (CC_LICENSES !! nc_version t)
        ∧ license_type r = VStr (nc_version t)
        ∧ is_cc_license r = true
        ∧ w = downgrade_warning t (nc_version t))
       ∨ (CC_LICENSES !! nc_version t = None
          ∧ license_type r = VStr custom
          ∧ is_cc_license r = false
          ∧ d1 !! u "commercial" = Some (VStr forbidden)
          ∧ w = downgrade_warning t custom))
    ∧ ∀ embeds h1,
        build config author false title_override footer_override
              include_appendix h = (Ret embeds, h1) →
        ∃ main rest lines,
          embeds = main :: rest
          ∧ color main = orange
          ∧ description main = Some (join nl (lines ++ [nl ++ u "> " ++ w])).
Proof.
  intros d Hty Hcc Hnc Hby.
  apply stored_type_lookup in Hty. pose proof (cc_by_not_custom t Hby) as Hcu.
  assert (∃ r d1 w,
    resolve config false h = (Ret r, <[fresh (dom h) := d1]> h)
    ∧ license_type r ≠ VStr t
    ∧ d1 !! u "type" = Some (license_type r)
    ∧ warning_message r = Some w
    ∧ ((is_Some (CC_LICENSES !! nc_version t)
        ∧ license_type r = VStr (nc_version t)
        ∧ is_cc_license r = true
        ∧ w = downgrade_warning t (nc_version t))
       ∨ (CC_LICENSES !! nc_version t = None
          ∧ license_type r = VStr custom
          ∧ is_cc_license r = false
          ∧ d1 !! u "commercial" = Some (VStr forbidden)
          ∧ w = downgrade_warning t custom))) as (r & d1 & w & Hres & Hrest).
  { destruct (CC_LICENSES !! nc_version t) as [e|] eqn:Hsib.
    - do 3 eexists. split.
      + apply (resolve_nc_sibling config h t); by rewrite ?Hsib.
      + cbn [license_type warning_message is_cc_license].
        repeat apply conj; try done.
        * intros [= E]. by apply nc_version_changes in E.
        * by rewrite lookup_insert_eq.
        * left. by eauto.
    - do 3 eexists. split.
      + by apply (resolve_fallback config h t).
      + cbn [license_type warning_message is_cc_license].
        repeat apply conj; try done.
        * congruence.
        * rewrite lookup_insert_ne by (intros E; by vm_compute in E).
          by rewrite lookup_insert_eq.
        * right. by rewrite lookup_insert_eq. }
  exists r, d1, w. destruct Hrest as (? & ? & Hw & ?).
  repeat apply conj; try done.
  intros embeds h1 (r1 & ? & ? & d3 & _ & Hres1 & _ & _ & _ & _ & ->)%build_inv.
  rewrite Hres in Hres1. injection Hres1 as <- _.
  destruct (resolve_warned _ _ _ _ _ Hres) as [Hwd Hwl].
  rewrite Hw in Hwd, Hwl.
  eexists _, _, _. split; [reflexivity |].
  rewrite main_section_color, main_section_description, Hwd, Hwl.
  split; [by rewrite bool_decide_eq_true_2 | by rewrite app_assoc].
Qed.

(** C1 (fails on the code). A stored CC license without the NC marker
    whose name does not hold [CC BY] is not downgraded when commercial use
    is not allowed: [replace] (line 215) finds nothing to replace, the
    candidate is the stored name itself, line 217 finds it in the catalog,
    and the license is adjusted to itself. The effective type is the
    stored, commercial-permitting one, the working details are the stored
    ones, and the warning names the same license twice. The fallback to
    [custom] of lines 222 to 227, which the comment of line 223 means for
    such a name, is not reached. *)
Theorem commercial_cc_outside_pattern_is_kept config h t :
  let d := deref h (license_details config) in
  d !! u "type" = Some (VStr t) →
  is_Some (CC_LICENSES !! t) →
  contains (u "NC") t = false →
  contains (u "CC BY") t = false →
  t ≠ custom →
  ∃ r,
    resolve config false h = (Ret r, <[fresh (dom h) := d]> h)
    ∧ license_type r = VStr t
    ∧ is_cc_license r = true
    ∧ warning_message r = Some (downgrade_warning t t).
Proof.
  intros d Hty Hcc Hnc Hby Hcu.
  assert (nc_version t = t) as E by (by apply replace_absent).
  pose proof (resolve_nc_sibling config h t) as Hres. cbn zeta in Hres.
  fold d in Hres. rewrite E in Hres.
  rewrite (insert_id d (u "type") (VStr t) Hty) in Hres.
  eexists. split; [apply Hres; by try apply stored_type_lookup |].
  done.
Qed.

(** C2. For a stored CC license that already carries the NC marker, a
    call with commercial use not allowed is the call with commercial use
    allowed: the same resolution (type unchanged, no warning), the same
    sections and the same working copy. *)
Theorem nc_license_is_kept
    config author title_override footer_override include_appendix h t :
  let d := deref h (license_details config) in
  d !! u "type" = Some (VStr t) →
  is_Some (CC_LICENSES !! t) →
  contains (u "NC") t = true →
  resolve config false h = resolve config true h
  ∧ build config author false title_override footer_override
          include_appendix h
    = build config author true title_override footer_override
            include_appendix h
  ∧ ∃ r, resolve config false h = (Ret r, <[fresh (dom h) := d]> h)
         ∧ license_type r = VStr t
         ∧ is_cc_license r = true
         ∧ warning_message r = None.
Proof.
  intros d Hty Hcc Hnc. apply stored_type_lookup in Hty.
  assert (resolve config false h = resolve config true h) as Hsame.
  { apply resolve_unchanged; fold d; rewrite Hty.
    - intros [= E]. by apply nc_not_custom in E.
    - intros ? [= <-]. by rewrite Hnc, andb_false_r. }
  split; [done |]. split.
  - unfold build_license_embeds. by rewrite !run_bind, Hsame.
  - rewrite Hsame, resolve_allowed. fold d. rewrite Hty.
    eexists. split; [reflexivity |]. cbn. repeat apply conj; try done.
    by apply bool_decide_eq_true.
Qed.

(** C8. The call writes to its own copy only: every dictionary of the
    store, and the stored [config.license_details] first of all, is after
    the call what it was before, whether the call returns or raises. *)
Theorem build_keeps_config
    config author allowed title_override footer_override include_appendix h :
  is_Some (h !! license_details config) →
  let h1 := (build config author allowed title_override footer_override
                   include_appendix h).2 in
  deref h1 (license_details config) = deref h (license_details config)
  ∧ ∀ l, is_Some (h !! l) → h1 !! l = h !! l.
Proof.
  intros Hcfg h1.
  destruct (build_store config author allowed title_override footer_override
                        include_appendix h) as [d3 Hd3].
  fold h1 in Hd3. rewrite Hd3.
  assert (∀ l, is_Some (h !! l) → l ≠ fresh (dom h)) as Hne.
  { intros l [x Hx] ->. by rewrite fresh_ref_unused in Hx. }
  split.
  - rewrite deref_insert_ne; [done |]. intros E. by apply (Hne _ Hcfg).
  - intros l Hl. rewrite lookup_insert_ne; [done |].
    intros E. by apply (Hne _ Hl).
Qed.

(** C10. The main section of a call that returns is orange when the
    resolution produced a warning, and gold when it produced none. *)
Theorem main_color_tells_warning
    config author allowed title_override footer_override include_appendix
    h embeds h1 :
  build config author allowed title_override footer_override
        include_appendix h = (Ret embeds, h1) →
  ∃ r h0 main rest,
    resolve config allowed h = (Ret r, h0)
    ∧ embeds = main :: rest
    ∧ color main = match warning_message r with
                   | Some _ => orange
                   | None => gold
                   end.
Proof.
  intros (r & d1 & ? & d3 & _ & Hres & _ & _ & _ & _ & ->)%build_inv.
  eexists r, _, _, _. split; [exact Hres |]. split; [reflexivity |].
  rewrite main_section_color.
  destruct (resolve_warned _ _ _ _ _ Hres) as [-> _].
  by destruct (warning_message r).
Qed.

(** ** The sections *)


Lemma not_term_key key :
  key ≠ u "reproduce" → key ≠ u "derive" → key ≠ u "commercial" →
  key ∉ term_keys.
Proof.
  intros ? ? ?. unfold term_keys. rewrite !not_elem_of_cons.
  repeat split; try done. apply not_elem_of_nil.
Qed.



(** ** The placeholder *)

Lemma store_insert_inj (h : gmap positive (gmap pystr pyval)) r d d' :
  <[r := d]> h = <[r := d']> h → d = d'.
Proof.
  intros E. apply (f_equal (λ m, m !! r)) in E.
  rewrite !lookup_insert_eq in E. congruence.
Qed.

(** The name of the field that displays a term. *)
Definition term_label (key : pystr) : pystr :=
  if str_eqb key (u "reproduce") then u "🔁 二次传播"
  else if str_eqb key (u "derive") then u "🎨 二次创作"
  else u "💰 商业用途".

Lemma term_field_shown r d key :
  is_software_license r = false → key ∈ term_keys →
  field (term_label key) (shown d key) true ∈ license_fields r d.
Proof.
  intros Hsw Hkey. unfold license_fields. rewrite Hsw.
  unfold term_keys in Hkey.
  apply elem_of_cons in Hkey as [-> | Hkey];
    [| apply elem_of_cons in Hkey as [-> | Hkey];
       [| apply elem_of_cons in Hkey as [-> | Hkey];
          [| by apply elem_of_nil in Hkey]]].
  - replace (term_label (u "reproduce")) with (u "🔁 二次传播")
      by (by vm_compute).
    do 2 right. by left.
  - replace (term_label (u "derive")) with (u "🎨 二次创作")
      by (by vm_compute).
    do 3 right. by left.
  - replace (term_label (u "commercial")) with (u "💰 商业用途")
      by (by vm_compute).
    do 4 right. by left.
Qed.

(** C4. In a call that returns, a term ([reproduce], [derive] or
    [commercial]) whose template, after the downgrade and the catalog
    overlay, is [pre{license_type}post] is substituted to [pre], the
    name, and [post] formatted in the same way; the name is the resolved
    license, a key of the CC catalog, when the resolution is a CC license,
    and the phrase [same_terms] in every other case. That text is what
    the working copy holds and, beautified, what the term's field of the
    main section shows (a software license shows no such field). *)
Theorem placeholder_names_license
    config author allowed title_override footer_override include_appendix
    h embeds h1 r d1 d2 key pre post :
  build config author allowed title_override footer_override
        include_appendix h = (Ret embeds, h1) →
  resolve config allowed h = (Ret r, <[fresh (dom h) := d1]> h) →
  overlay r (<[fresh (dom h) := d1]> h) = (Ret tt, <[fresh (dom h) := d2]> h) →
  key ∈ term_keys →
  d2 !! key = Some (VStr (pre ++ u "{license_type}" ++ post)) →
  brace_free pre = true →
  let same_license :=
    if is_cc_license r then str_of (license_type r) else same_terms in
  ∃ post1,
    py_format post same_license = Ret post1
    ∧ deref h1 (fresh (dom h)) !! key
      = Some (VStr (pre ++ same_license ++ post1))
    ∧ (is_cc_license r = true →
       is_Some (CC_LICENSES !! same_license)
       ∧ license_type r = VStr same_license)
    ∧ (is_software_license r = false →
       ∃ main rest,
         embeds = main :: rest
         ∧ field (term_label key)
                 (VStr (_format_links_in_text (pre ++ same_license ++ post1)))
                 true ∈ fields main).
Proof.
  intros (r' & d1' & d2' & d3 & Hr & Hres' & Hov' & Hsub & -> & _ & ->)%build_inv
         Hres Hov Hkey Htpl Hpre same_license.
  rewrite Hres in Hres'. injection Hres' as <- <-%store_insert_inj.
  rewrite Hov in Hov'. injection Hov' as <-%store_insert_inj.
  destruct (Hsub key) as [Hin _]. specialize (Hin Hkey).
  rewrite Htpl in Hin. cbn [subst_value] in Hin.
  change (placeholder_replacement r) with same_license in Hin.
  rewrite py_format_placeholder in Hin by done.
  destruct (py_format post same_license) as [post1|] eqn:Hpost; [| done].
  injection Hin as Hd3. exists post1. rewrite deref_insert_eq.
  rewrite <- Hd3, <- app_assoc. repeat apply conj; try done.
  - intros Hcc.
    destruct (resolve_downgrade config allowed h)
      as (ty & cc & w & d1' & Hdg & Hres').
    rewrite Hres in Hres'. injection Hres' as -> _. cbn in Hcc. subst cc.
    apply downgrade_cc in Hdg as (t & e & -> & He).
    unfold same_license. cbn. by rewrite He.
  - intros Hsw. eexists _, _. split; [reflexivity |].
    rewrite main_section_fields. apply elem_of_app. left.
    pose proof (term_field_shown r d3 key Hsw Hkey) as Hf.
    unfold shown in Hf. rewrite <- Hd3 in Hf. cbn in Hf.
    by rewrite <- app_assoc in Hf.
Qed.

(** ** Custom licenses *)

Lemma forbidden_plain : brace_free forbidden = true.
Proof. by vm_compute. Qed.

Lemma forbidden_shown (d : gmap pystr pyval) key :
  d !! key = Some (VStr forbidden) → shown d key = VStr forbidden.
Proof. unfold shown. intros ->. by vm_compute. Qed.

(** C3, as the code has it. With commercial use not allowed, a license
    whose stored type is in neither catalog is never rejected: the
    resolution returns, keeps the type, and produces no warning, and the
    main section of a call that returns is gold and shows the custom
    category. The commercial term is forced to forbidden when the type is
    [custom] (the default of details without a type), whatever was
    stored; for any other type in neither catalog the details are left as
    they are stored. *)
Theorem custom_license_is_forced
    config author title_override footer_override include_appendix h :
  let d := deref h (license_details config) in
  in_catalog (stored_type d) CC_LICENSES = false →
  in_catalog (stored_type d) SOFTWARE_LICENSES = false →
  ∃ r d1,
    resolve config false h = (Ret r, <[fresh (dom h) := d1]> h)
    ∧ license_type r = stored_type d
    ∧ is_cc_license r = false
    ∧ is_software_license r = false
    ∧ warning_message r = None
    ∧ (stored_type d = VStr custom →
       d1 = <[u "commercial" := VStr forbidden]> d)
    ∧ (stored_type d ≠ VStr custom → d1 = d)
    ∧ ∀ embeds h1,
        build config author false title_override footer_override
              include_appendix h = (Ret embeds, h1) →
        ∃ main rest,
          embeds = main :: rest
          ∧ color main = gold
          ∧ fields main !! 0%nat
            = Some (field (u "📄 协议类型") (VStr (u "**自定义协议**")) false)
          ∧ (stored_type d = VStr custom →
             fields main !! 4%nat
             = Some (field (u "💰 商业用途") (VStr forbidden) true)).
Proof.
  intros d Hcc Hsw.
  assert (∃ r d1,
    resolve config false h = (Ret r, <[fresh (dom h) := d1]> h)
    ∧ license_type r = stored_type d
    ∧ is_cc_license r = false
    ∧ is_software_license r = false
    ∧ warning_message r = None
    ∧ (stored_type d = VStr custom →
       d1 = <[u "commercial" := VStr forbidden]> d)
    ∧ (stored_type d ≠ VStr custom → d1 = d))
    as (r & d1 & Hres & Hty & Hrcc & Hrsw & Hw & Hcu & Hnc).
  { destruct (decide (stored_type d = VStr custom)) as [E|E].
    - do 2 eexists. split; [by apply resolve_custom |].
      cbn [license_type is_cc_license is_software_license warning_message].
      rewrite <- E. by repeat apply conj.
    - do 2 eexists. split.
      + rewrite resolve_unchanged, resolve_allowed; fold d; [done.. |].
        intros t Ht. rewrite Ht in Hcc. by rewrite Hcc.
      + cbn [license_type is_cc_license is_software_license warning_message].
        by repeat apply conj. }
  exists r, d1. repeat apply conj; try done.
  intros embeds h1
    (r' & d1' & d2 & d3 & Hr & Hres' & Hov & Hsub & -> & _ & ->)%build_inv.
  rewrite Hres in Hres'. injection Hres' as <- <-%store_insert_inj.
  eexists _, _. split; [reflexivity |].
  rewrite main_section_color, main_section_fields.
  destruct (resolve_warned _ _ _ _ _ Hres) as [-> _]. rewrite Hw.
  unfold license_fields. rewrite Hrsw, Hrcc.
  repeat apply conj; try done.
  intros E. cbn. f_equal. f_equal.
  rewrite <- Hr, overlay_custom in Hov by done.
  injection Hov as <-%store_insert_inj.
  apply forbidden_shown.
  destruct (Hsub (u "commercial")) as [Hin _].
  rewrite (Hcu E), lookup_insert_eq in Hin. cbn [subst_value] in Hin.
  rewrite py_format_plain in Hin by apply forbidden_plain.
  symmetry. injection Hin; [done |].
  unfold term_keys. do 2 right. by left.
Qed.

(** ** Missing fields *)

(** A term that [str.format] accepts, whatever the license name. *)
Definition valid_template (v : pyval) : Prop :=
  ∀ template, v = VStr template →
              ∀ arg, ∃ text, py_format template arg = Ret text.

Lemma valid_template_subst replacement (o : option pyval) :
  (∀ v, o = Some v → valid_template v) →
  ∃ v, subst_value replacement o = Ret v.
Proof.
  intros Hv. destruct o as [[template|]|]; cbn [subst_value]; eauto.
  destruct (Hv _ eq_refl template eq_refl replacement) as [text ->].
  by eexists.
Qed.

Lemma valid_template_forbidden : valid_template (VStr forbidden).
Proof.
  intros template [= <-] arg. exists forbidden.
  apply py_format_plain, forbidden_plain.
Qed.

Lemma downgrade_terms d allowed ty cc w d1 key :
  downgrade d allowed ty cc w d1 → key ∈ term_keys →
  d1 !! key = d !! key ∨ d1 !! key = Some (VStr forbidden).
Proof.
  intros Hdg Hkey.
  destruct (decide (key = u "commercial")) as [-> | Hne].
  - inversion Hdg; subst; rewrite ?lookup_insert_eq; auto.
    left. by rewrite lookup_insert_ne by (intros E; by vm_compute in E).
  - left. apply (downgrade_other_keys _ _ _ _ _ _ _ Hdg); [| done].
    intros ->. revert Hkey. unfold term_keys. rewrite !elem_of_cons.
    intros [E | [E | [E | E%elem_of_nil]]]; try done; by vm_compute in E.
Qed.

(** With catalogs that share no key, the overlay returns. *)
Lemma overlay_returns d allowed ty cc w d1 r0 h :
  (∀ t, is_Some (CC_LICENSES !! t) → SOFTWARE_LICENSES !! t = None) →
  downgrade d allowed ty cc w d1 →
  let r := {| saved_details := r0; license_type := ty; is_cc_license := cc;
              is_software_license := in_catalog (stored_type d) SOFTWARE_LICENSES;
              warning_message := w |} in
  ∃ d2,
    overlay r (<[r0 := d1]> h) = (Ret tt, <[r0 := d2]> h)
    ∧ ((is_cc_license r = false ∧ is_software_license r = false ∧ d2 = d1)
       ∨ (∃ t e, is_cc_license r = true ∧ is_software_license r = false
                 ∧ CC_LICENSES !! t = Some e ∧ d2 = e ∪ d1)
       ∨ (∃ t e, is_cc_license r = false ∧ is_software_license r = true
                 ∧ SOFTWARE_LICENSES !! t = Some e ∧ d2 = e ∪ d1)).
Proof.
  intros Hdisj Hdg r.
  assert (∀ t, stored_type d = VStr t → is_Some (CC_LICENSES !! t) →
               in_catalog (stored_type d) SOFTWARE_LICENSES = false) as Hsw.
  { intros t -> Ht. apply bool_decide_eq_false. rewrite (Hdisj t Ht).
    by intros [? ?]. }
  assert (∀ v, in_catalog v SOFTWARE_LICENSES = true →
               ∃ t e, v = VStr t ∧ SOFTWARE_LICENSES !! t = Some e) as Hin.
  { intros [t|] Hv; [| done]. apply bool_decide_eq_true in Hv as [e He].
    eauto. }
  assert (∀ v, in_catalog v CC_LICENSES = true →
               ∃ t e, v = VStr t ∧ CC_LICENSES !! t = Some e) as Hic.
  { intros [t|] Hv; [| done]. apply bool_decide_eq_true in Hv as [e He].
    eauto. }
  assert (cc = false → ty = stored_type d
          ∨ in_catalog (stored_type d) SOFTWARE_LICENSES = false) as Hty.
  { intros ->. inversion Hdg; subst; eauto. }
  destruct cc.
  - destruct (downgrade_cc _ _ _ _ _ Hdg) as (t & e & -> & He).
    exists (e ∪ d1). split; [by apply (overlay_cc r t e) |].
    right. left. exists t, e. repeat apply conj; try done. cbn.
    inversion Hdg as [? Hcc| ? ? Hcc | |]; subst; eauto.
  - destruct (in_catalog (stored_type d) SOFTWARE_LICENSES) eqn:Es.
    + destruct (Hty eq_refl) as [-> | ?]; [| congruence].
      destruct (Hin _ Es) as (t & e & Et & He).
      exists (e ∪ d1). split.
      * by apply (overlay_software r t e).
      * right. right. exists t, e. by repeat apply conj.
    + exists d1. split.
      * apply overlay_custom; by subst r; cbn.
      * left. by subst r; cbn.
Qed.

Lemma not_set_shown (d : gmap pystr pyval) key :
  d !! key = None → shown d key = VStr not_set.
Proof. unfold shown. intros ->. by vm_compute. Qed.

Lemma substituted_none (keys : list pystr) (replacement : pystr)
      (d d3 : gmap pystr pyval) (key : pystr) :
  substituted keys replacement d d3 → d !! key = None → d3 !! key = None.
Proof.
  intros Hs Hd. destruct (Hs key) as [Hin Hout].
  destruct (decide (key ∈ keys)) as [Hk|Hk].
  - specialize (Hin Hk). rewrite Hd in Hin. by injection Hin.
  - by rewrite Hout.
Qed.

(** C9, as the code has it. With catalogs that share no key, whose CC
    entries carry a [url], whose software entries carry a [url] and a
    [full_text], and with terms that [str.format] accepts, the call
    returns whichever fields the stored details lack. A field that the
    working details lack is displayed as the placeholder [not_set];
    lacking [notes] adds no field; and for a license in neither catalog a
    field the stored details lack (the type and the commercial term
    apart, which the downgrade may set) is lacking in the working
    details. *)
Theorem missing_fields_do_not_raise
    config author allowed title_override footer_override include_appendix h :
  let d := deref h (license_details config) in
  (∀ t e, CC_LICENSES !! t = Some e → is_Some (e !! u "url")) →
  (∀ t e, SOFTWARE_LICENSES !! t = Some e →
          is_Some (e !! u "url") ∧ is_Some (e !! u "full_text")) →
  (∀ t, is_Some (CC_LICENSES !! t) → SOFTWARE_LICENSES !! t = None) →
  (∀ t e key v, CC_LICENSES !! t = Some e ∨ SOFTWARE_LICENSES !! t = Some e →
                key ∈ term_keys → e !! key = Some v → valid_template v) →
  (∀ key v, key ∈ term_keys → d !! key = Some v → valid_template v) →
  ∃ r h0 d3 main rest,
    resolve config allowed h = (Ret r, h0)
    ∧ build config author allowed title_override footer_override
            include_appendix h
      = (Ret (main :: rest), <[fresh (dom h) := d3]> h)
    ∧ fields main = license_fields r d3 ++ notes_fields r d3
    ∧ (∀ key, d3 !! key = None → shown d3 key = VStr not_set)
    ∧ (d3 !! u "notes" = None → notes_fields r d3 = [])
    ∧ (is_cc_license r = false → is_software_license r = false →
       ∀ key, key ≠ u "type" → key ≠ u "commercial" →
              d !! key = None → d3 !! key = None).
Proof.
  intros d Hcc_url Hsw_keys Hdisj Htpl_cat Htpl_d.
  destruct (resolve_downgrade config allowed h)
    as (ty & cc & w & d1 & Hdg & Hres). fold d in Hdg, Hres.
  destruct (overlay_returns d allowed ty cc w d1 (fresh (dom h)) h Hdisj Hdg)
    as (d2 & Hov & Hd2).
  match type of Hres with _ = (Ret ?r0, _) => set (r := r0) in * end.
  change (fresh (dom h)) with (saved_details r) in Hov, Hres.
  (* the terms of the working details are valid templates *)
  assert (∀ key v, key ∈ term_keys → d1 !! key = Some v → valid_template v)
    as Htpl_d1.
  { intros key v Hkey Hv.
    destruct (downgrade_terms _ _ _ _ _ _ key Hdg Hkey) as [E|E];
      rewrite E in Hv.
    - by eapply Htpl_d.
    - injection Hv as <-. apply valid_template_forbidden. }
  assert (∀ key v, key ∈ term_keys → d2 !! key = Some v → valid_template v)
    as Htpl_d2.
  { intros key v Hkey Hv.
    destruct Hd2 as [(_ & _ & ->) | [(t & e & _ & _ & He & ->)
                                     | (t & e & _ & _ & He & ->)]].
    - by eapply Htpl_d1.
    - apply lookup_union_Some_raw in Hv as [Hv | [_ Hv]].
      + eapply Htpl_cat; eauto.
      + by eapply Htpl_d1.
    - apply lookup_union_Some_raw in Hv as [Hv | [_ Hv]].
      + eapply Htpl_cat; eauto.
      + by eapply Htpl_d1. }
  destruct (for_each_substitute_returns
              (saved_details r) (placeholder_replacement r) term_keys d2 h)
    as [d3 Hsub].
  { intros key Hkey. apply valid_template_subst. intros v Hv.
    by eapply Htpl_d2. }
  { apply term_keys_NoDup. }
  change (for_each term_keys
            (substitute_key (saved_details r) (placeholder_replacement r)))
    with (substitute_placeholders r) in Hsub.
  destruct (substitute_inv _ _ _ _ Hsub) as (d3' & E%store_insert_inj & Hsubd).
  subst d3'.
  pose proof (build_run config author allowed title_override footer_override
                        include_appendix h r d1 d2 d3 Hres Hov Hsub) as Hrun.
  (* the catalog supplies the url and the full text *)
  assert (∀ key, key ∉ term_keys → d3 !! key = d2 !! key) as Hother
    by (intros key; apply Hsubd).
  assert ((is_cc_license r || is_software_license r)
          && bool_decide (d3 !! u "url" = None) = false) as Hurl.
  { destruct Hd2 as [(-> & -> & _) | [(t & e & -> & -> & He & ->)
                                      | (t & e & -> & -> & He & ->)]];
      [done | |]; cbn [orb andb]; apply bool_decide_eq_false;
      (rewrite Hother
         by (apply not_term_key; intros E; by vm_compute in E));
      apply not_eq_None_Some, lookup_union_is_Some; left.
    - by eapply Hcc_url.
    - by eapply Hsw_keys. }
  assert (is_software_license r
          && bool_decide (d3 !! u "full_text" = None) = false) as Hfull.
  { destruct Hd2 as [(_ & -> & _) | [(t & e & _ & -> & He & ->)
                                     | (t & e & _ & -> & He & ->)]];
      [done | done |]; cbn [andb]; apply bool_decide_eq_false.
    rewrite Hother by (apply not_term_key; intros E; by vm_compute in E).
    apply not_eq_None_Some, lookup_union_is_Some; left.
    by eapply Hsw_keys. }
  rewrite Hurl, Hfull in Hrun.
  eexists r, _, d3, _, _. split; [exact Hres |]. split; [exact Hrun |].
  repeat apply conj.
  - apply main_section_fields.
  - apply not_set_shown.
  - intros Hn. unfold notes_fields. rewrite Hn. cbn.
    by rewrite andb_false_r.
  - intros Hrcc Hrsw key Hty Hco Hkey.
    apply (substituted_none _ _ _ _ _ Hsubd).
    destruct Hd2 as [(_ & _ & ->) | [(t & e & E & _) | (t & e & _ & E & _)]];
      [| congruence..].
    by rewrite (downgrade_other_keys _ _ _ _ _ _ _ Hdg).
Qed.

(** ** Further properties of the call *)

Lemma nc_version_marker t :
  follows_cc_pattern t = true → contains (u "NC") (nc_version t) = true.
Proof.
  intros Hby. apply (contains_trans _ (u "CC BY-NC")); [by vm_compute |].
  apply replace_contains_new; [| done]. intros E. by vm_compute in E.
Qed.

Lemma stored_type_insert_other (d : gmap pystr pyval) (key : pystr) v :
  key ≠ u "type" → stored_type (<[key := v]> d) = stored_type d.
Proof. intros Hne. unfold stored_type. by rewrite lookup_insert_ne. Qed.

Lemma stored_type_insert (d : gmap pystr pyval) v :
  stored_type (<[u "type" := v]> d) = v.
Proof. unfold stored_type. by rewrite lookup_insert_eq. Qed.

(** The resolution of [resolve_license] is the one [resolve_downgrade]
    describes. *)
Lemma resolve_inv config allowed h r h0 :
  resolve config allowed h = (Ret r, h0) →
  ∃ d1, downgrade (deref h (license_details config)) allowed
                  (license_type r) (is_cc_license r) (warning_message r) d1
        ∧ saved_details r = fresh (dom h)
        ∧ is_software_license r
          = in_catalog (stored_type (deref h (license_details config)))
                       SOFTWARE_LICENSES
        ∧ h0 = <[fresh (dom h) := d1]> h.
Proof.
  destruct (resolve_downgrade config allowed h) as (ty & cc & w & d1 & Hdg & ->).
  intros [= <- <-]. by exists d1.
Qed.

(** X7. The downgrade is stable: when the details it leaves are resolved
    again under the same policy, the type is the same, the details are
    left as they are, and there is no new warning. *)
Theorem downgrade_is_stable config config1 h h1 r d1 :
  resolve config false h = (Ret r, <[fresh (dom h) := d1]> h) →
  (∀ t, stored_type (deref h (license_details config)) = VStr t →
        is_Some (CC_LICENSES !! t) → follows_cc_pattern t = true) →
  deref h1 (license_details config1) = d1 →
  ∃ r1,
    resolve config1 false h1 = (Ret r1, <[fresh (dom h1) := d1]> h1)
    ∧ license_type r1 = license_type r
    ∧ warning_message r1 = None.
Proof.
  intros (d1' & Hdg & _ & _ & E%store_insert_inj)%resolve_inv Hpat.
  subst d1'. set (d := deref h (license_details config)) in *.
  destruct r as [sd ty cc sw w]. cbn [license_type is_cc_license
                                      warning_message] in *.
  assert (∀ d0, deref h1 (license_details config1) = d0 →
    resolve config1 true h1
    = (Ret {| saved_details := fresh (dom h1);
              license_type := stored_type d0;
              is_cc_license := in_catalog (stored_type d0) CC_LICENSES;
              is_software_license :=
                in_catalog (stored_type d0) SOFTWARE_LICENSES;
              warning_message := None |},
       <[fresh (dom h1) := d0]> h1)) as Hallowed
    by (intros d0 <-; apply resolve_allowed).
  inversion Hdg as [Hnone | _ Hcu | t _ Hty Hne [e He] Hnc Hsib
                    | t _ Hty Hne [e He] Hnc Hsib]; subst; intros Hd1.
  - destruct Hnone as [? | [Hnc Hcond]]; [done |].
    eexists. split.
    + rewrite resolve_unchanged; rewrite ?Hd1; [by apply Hallowed | done..].
    + done.
  - eexists. split.
    + rewrite (resolve_custom config1 h1); rewrite Hd1.
      * by rewrite insert_insert_eq.
      * by rewrite stored_type_insert_other by (intros E; by vm_compute in E).
    + done.
  - assert (follows_cc_pattern t = true) as Hby by (apply Hpat; eauto).
    pose proof (nc_version_marker t Hby) as Hmark.
    eexists. split.
    + rewrite resolve_unchanged; rewrite ?Hd1, ?stored_type_insert;
        [by apply Hallowed | |].
      * intros [= E]. by apply nc_not_custom in E.
      * intros ? [= <-]. by rewrite Hmark, andb_false_r.
    + cbn. by rewrite stored_type_insert.
  - eexists. split.
    + rewrite (resolve_custom config1 h1); rewrite Hd1.
      * by rewrite insert_insert_eq.
      * rewrite stored_type_insert_other by (intros E; by vm_compute in E).
        apply stored_type_insert.
    + done.
Qed.

(** X8. A warning is produced exactly when commercial use is not allowed and
    the stored type is a CC license of the catalog, other than [custom],
    without the NC marker. *)
Theorem warning_iff_commercial_cc config allowed h r h0 :
  resolve config allowed h = (Ret r, h0) →
  is_Some (warning_message r)
  ↔ allowed = false
    ∧ ∃ t, stored_type (deref h (license_details config)) = VStr t
           ∧ t ≠ custom
           ∧ is_Some (CC_LICENSES !! t)
           ∧ contains (u "NC") t = false.
Proof.
  intros (d1 & Hdg & _)%resolve_inv.
  set (d := deref h (license_details config)) in *.
  inversion Hdg as [Hnone | Hal Hcu | t Hal Hty Hne Hcc Hnc Hsib
                    | t Hal Hty Hne Hcc Hnc Hsib]; subst.
  - split; [by intros [? ?] |]. intros [-> (t & Hty & Hne & Hcc & Hnc)].
    destruct Hnone as [? | [_ Hcond]]; [done |].
    specialize (Hcond t Hty). rewrite Hnc in Hcond.
    unfold in_catalog in Hcond. by rewrite bool_decide_eq_true_2 in Hcond.
  - split; [by intros [? ?] |]. intros [_ (t & Hty & Hne & _)]. congruence.
  - split; [| by eauto]. intros _. split; [done |]. by exists t.
  - split; [| by eauto]. intros _. split; [done |]. by exists t.
Qed.

(** X9. A software license is never downgraded: for a stored type of the
    software catalog that is not a CC license, the call with commercial
    use not allowed is the call with commercial use allowed. *)
Theorem software_license_is_kept
    config author title_override footer_override include_appendix h t :
  stored_type (deref h (license_details config)) = VStr t →
  is_Some (SOFTWARE_LICENSES !! t) →
  CC_LICENSES !! t = None →
  t ≠ custom →
  build config author false title_override footer_override include_appendix h
  = build config author true title_override footer_override include_appendix h
  ∧ ∃ r h0, resolve config false h = (Ret r, h0)
            ∧ license_type r = VStr t
            ∧ is_software_license r = true
            ∧ warning_message r = None.
Proof.
  intros Hty Hsw Hcc Hne.
  assert (resolve config false h = resolve config true h) as Hsame.
  { apply resolve_unchanged; rewrite Hty.
    - congruence.
    - intros ? [= <-]. unfold in_catalog.
      rewrite bool_decide_eq_false_2; [done |]. rewrite Hcc. by intros [? ?]. }
  split.
  - unfold build_license_embeds. by rewrite !run_bind, Hsame.
  - rewrite Hsame, resolve_allowed. rewrite Hty. eexists _, _.
    split; [reflexivity |]. cbn. repeat apply conj; try done.
    by apply bool_decide_eq_true.
Qed.

(** X10. A CC license shows no additional terms: whatever [notes] the details
    hold, the main section of a call that resolves to a CC license has no
    field of that name, and, when the license is not also a software
    license, its fields are the type, the attribution and the three
    terms. *)
Theorem cc_license_shows_no_notes
    config author allowed title_override footer_override include_appendix
    h embeds h1 r h0 :
  build config author allowed title_override footer_override
        include_appendix h = (Ret embeds, h1) →
  resolve config allowed h = (Ret r, h0) →
  is_cc_license r = true →
  ∃ main rest,
    embeds = main :: rest
    ∧ (∀ f, f ∈ fields main → field_name f ≠ u "📝 附加条款 (如无另外声明，其效力范围同本协议)")
    ∧ (is_software_license r = false →
       field_name <$> fields main
       = [u "📄 协议类型"; u "✒️ 作者署名"; u "🔁 二次传播"; u "🎨 二次创作";
          u "💰 商业用途"]).
Proof.
  intros (r' & d1 & d2 & d3 & _ & Hres' & _ & _ & _ & _ & ->)%build_inv Hres Hcc.
  rewrite Hres in Hres'. injection Hres' as <- _.
  eexists _, _. split; [reflexivity |].
  rewrite main_section_fields. unfold notes_fields, license_fields.
  rewrite Hcc. cbn [negb andb]. rewrite app_nil_r. split.
  - intros f Hf E. destruct (is_software_license r);
      repeat (apply elem_of_cons in Hf as [-> | Hf];
              [by vm_compute in E |]);
      by apply elem_of_nil in Hf.
  - by intros ->.
Qed.

(** X11. The catalog wins over the stored details: for a license of a catalog,
    a key that its entry defines has, in the working copy of a call that
    returns, the value of the entry (substituted, for the three terms),
    whatever the stored details hold for it. *)
Theorem catalog_entry_wins
    config author allowed title_override footer_override include_appendix
    h embeds h1 r h0 t e key v :
  build config author allowed title_override footer_override
        include_appendix h = (Ret embeds, h1) →
  resolve config allowed h = (Ret r, h0) →
  license_type r = VStr t →
  (is_cc_license r = true ∧ CC_LICENSES !! t = Some e)
  ∨ (is_cc_license r = false ∧ is_software_license r = true
     ∧ SOFTWARE_LICENSES !! t = Some e) →
  e !! key = Some v →
  (key ∉ term_keys → deref h1 (fresh (dom h)) !! key = Some v)
  ∧ (key ∈ term_keys →
     subst_value (placeholder_replacement r) (Some v)
     = Ret (deref h1 (fresh (dom h)) !! key)).
Proof.
  intros (r' & d1 & d2 & d3 & Hr & Hres' & Hov & Hsub & -> & _ & _)%build_inv
         Hres Hty Hcat Hkey.
  rewrite Hres in Hres'. injection Hres' as <- _.
  rewrite deref_insert_eq. rewrite <- Hr in Hov.
  assert (d2 = e ∪ d1) as ->.
  { destruct Hcat as [[Hcc He] | (Hcc & Hsw & He)].
    - rewrite (overlay_cc r t e) in Hov by done.
      by injection Hov as <-%store_insert_inj.
    - rewrite (overlay_software r t e) in Hov by done.
      by injection Hov as <-%store_insert_inj. }
  assert ((e ∪ d1) !! key = Some v) as Hl by (by apply lookup_union_Some_l).
  destruct (Hsub key) as [Hin Hout]. split.
  - intros Hk. by rewrite Hout.
  - intros Hk. rewrite <- Hl. by apply Hin.
Qed.

Lemma downgrade_not_cc d allowed ty cc w d1 :
  downgrade d allowed ty cc w d1 →
  in_catalog (stored_type d) CC_LICENSES = false → cc = false.
Proof.
  intros Hdg Hcc.
  assert (∀ t, stored_type d = VStr t → is_Some (CC_LICENSES !! t) → False)
    as Hno.
  { intros t Ht Hs. rewrite Ht in Hcc. unfold in_catalog in Hcc.
    by rewrite bool_decide_eq_true_2 in Hcc. }
  inversion Hdg; subst; try done.
  - match goal with H : stored_type d = VStr custom |- _ =>
      by rewrite <- H end.
  - exfalso. eauto.
Qed.

(** X12. A term that [str.format] rejects makes the call raise: for a license
    in neither catalog, whose stored [reproduce] is a text with a lone
    brace or with a plain field other than [license_type] (the
    [ValueError], [KeyError] or [IndexError] of [str.format], which
    [FormatError] stands for), the call ends with that error and returns no
    section. Nothing is said of a text whose fields carry a conversion, a
    format specification, an attribute or an index. *)
Theorem rejected_template_raises
    config author allowed title_override footer_override include_appendix
    h template :
  let d := deref h (license_details config) in
  in_catalog (stored_type d) CC_LICENSES = false →
  in_catalog (stored_type d) SOFTWARE_LICENSES = false →
  d !! u "reproduce" = Some (VStr template) →
  py_format template same_terms = Raise FormatError →
  (build config author allowed title_override footer_override
         include_appendix h).1 = Raise FormatError.
Proof.
  intros d Hcc Hsw Htpl Hfmt.
  destruct (resolve_downgrade config allowed h)
    as (ty & cc & w & d1 & Hdg & Hres). fold d in Hdg, Hres.
  rewrite Hsw in Hres.
  assert (cc = false) as -> by (by eapply downgrade_not_cc).
  unfold build_license_embeds. rewrite (run_bind_ret _ _ _ _ _ Hres).
  rewrite run_bind, overlay_custom by done.
  rewrite run_bind. unfold substitute_placeholders, term_keys.
  cbn [for_each saved_details]. rewrite run_bind, substitute_key_run.
  rewrite (downgrade_other_keys _ _ _ _ _ _ _ Hdg)
    by (intros E; by vm_compute in E).
  rewrite Htpl. cbn [subst_value]. unfold placeholder_replacement.
  cbn [is_cc_license]. by rewrite Hfmt.
Qed.

(** ** Blank texts *)

Lemma lstrip_blank (s : pystr) : forallb isspace s = true → lstrip s = [].
Proof.
  induction s as [|c s IH]; simpl; [done |].
  intros [-> Hs]%andb_true_iff. by apply IH.
Qed.

Lemma strip_blank (s : pystr) : forallb isspace s = true → strip s = [].
Proof. intros Hs. unfold strip. by rewrite (lstrip_blank s Hs). Qed.

(** A value that holds no text to display: [None], a string of white
    space only (the empty string is one), or the placeholder. *)
Definition blank (v : pyval) : bool :=
  match v with
  | VStr s => forallb isspace s || str_eqb s (u "无")
  | VNone => true
  end.

Lemma has_text_blank (v : pyval) : blank v = true → has_text v = false.
Proof.
  destruct v as [s|]; [| done]. unfold blank, has_text.
  intros [Hs | ->]%orb_true_iff.
  - rewrite (strip_blank s Hs). cbn [nonempty]. by rewrite andb_false_r.
  - cbn [negb]. by rewrite andb_false_r.
Qed.

(** X13. Blank texts are not displayed: in a call that returns, a
    [personal_statement] that is absent, [None], white space only or the
    placeholder gives no postscript section, and such [notes] give no
    additional-terms field. *)
Theorem blank_texts_are_not_shown
    config author allowed title_override footer_override include_appendix
    h embeds h1 r h0 :
  build config author allowed title_override footer_override
        include_appendix h = (Ret embeds, h1) →
  resolve config allowed h = (Ret r, h0) →
  let d3 := deref h1 (fresh (dom h)) in
  ∃ main rest,
    embeds = main :: rest
    ∧ (blank (default VNone (d3 !! u "personal_statement")) = true →
       rest = if include_appendix
              then [appendix_embed SIGNATURE_HELPER r] else [])
    ∧ (blank (default VNone (d3 !! u "notes")) = true →
       ∀ f, f ∈ fields main → field_name f ≠ u "📝 附加条款 (如无另外声明，其效力范围同本协议)").
Proof.
  intros (r' & d1 & d2 & d3' & _ & Hres' & _ & _ & -> & _ & ->)%build_inv Hres.
  rewrite Hres in Hres'. injection Hres' as <- _.
  intros d3. unfold d3. rewrite deref_insert_eq.
  eexists _, _. split; [reflexivity |]. split.
  - intros Hb%has_text_blank. unfold postscript_sections, appendix_sections.
    rewrite Hb. by rewrite app_nil_r.
  - intros Hb%has_text_blank f. rewrite main_section_fields.
    unfold notes_fields. rewrite Hb, andb_false_r, app_nil_r.
    unfold license_fields. intros Hf E.
    destruct (is_software_license r), (is_cc_license r);
      repeat (apply elem_of_cons in Hf as [-> | Hf];
              [by vm_compute in E |]);
      by apply elem_of_nil in Hf.
Qed.

End BuildFacts.

(** ** Concrete runs *)

(** The terms of a catalog entry are templates that [str.format] accepts. *)
Definition entry_ok (e : gmap pystr pyval) : bool :=
  forallb (λ key, match e !! key with
                  | Some (VStr template) => template_ok template
                  | _ => true
                  end) term_keys.

Lemma entry_ok_valid (e : gmap pystr pyval) (key : pystr) (v : pyval) :
  entry_ok e = true → key ∈ term_keys → e !! key = Some v → valid_template v.
Proof.
  unfold entry_ok. rewrite forallb_forall.
  intros Hok Hkey%list_elem_of_In Hv template -> arg.
  specialize (Hok key Hkey). rewrite Hv in Hok.
  by apply template_ok_format.
Qed.

Lemma sample_cc_urls t e :
  Sample.CC !! t = Some e → is_Some (e !! u "url").
Proof.
  revert t e.
  apply (bool_decide_unpack
           (map_Forall (λ (_ : pystr) (e : gmap pystr pyval),
                          is_Some (e !! u "url")) Sample.CC)).
  vm_compute. exact I.
Qed.

Lemma sample_software_keys t e :
  Sample.SOFTWARE !! t = Some e →
  is_Some (e !! u "url") ∧ is_Some (e !! u "full_text").
Proof.
  revert t e.
  apply (bool_decide_unpack
           (map_Forall (λ (_ : pystr) (e : gmap pystr pyval),
                          is_Some (e !! u "url") ∧ is_Some (e !! u "full_text"))
                       Sample.SOFTWARE)).
  vm_compute. exact I.
Qed.

Lemma sample_catalogs_disjoint t :
  is_Some (Sample.CC !! t) → Sample.SOFTWARE !! t = None.
Proof.
  intros [e He]. revert t e He.
  apply (bool_decide_unpack
           (map_Forall (λ (t : pystr) (_ : gmap pystr pyval),
                          Sample.SOFTWARE !! t = None) Sample.CC)).
  vm_compute. exact I.
Qed.

Lemma sample_templates t e key v :
  Sample.CC !! t = Some e ∨ Sample.SOFTWARE !! t = Some e →
  key ∈ term_keys → e !! key = Some v → valid_template v.
Proof.
  intros He. apply entry_ok_valid. destruct He as [He|He]; revert t e He.
  - apply (bool_decide_unpack
             (map_Forall (λ (_ : pystr) (e : gmap pystr pyval),
                            entry_ok e = true) Sample.CC)).
    vm_compute. exact I.
  - apply (bool_decide_unpack
             (map_Forall (λ (_ : pystr) (e : gmap pystr pyval),
                            entry_ok e = true) Sample.SOFTWARE)).
    vm_compute. exact I.
Qed.

(** The catalog that the comment of line 223 looks ahead to: with a key
    [CC0 1.0], [replace] leaves that name as it is, the name is found in
    the catalog, and the license is adjusted to itself, with a warning,
    rather than to [custom] as the comment intends. *)
Example cc0_is_adjusted_to_itself :
  follows_cc_pattern (u "CC0 1.0") = false
  ∧ (resolve_license Sample.CC_with_cc0 Sample.SOFTWARE Sample.config false
                     (Sample.store_of Sample.cc0)).1
    = Ret {| saved_details := 2%positive;
             license_type := VStr (u "CC0 1.0");
             is_cc_license := true;
             is_software_license := false;
             warning_message :=
               Some (downgrade_warning (u "CC0 1.0") (u "CC0 1.0")) |}.
Proof. vm_compute. split; reflexivity. Qed.

(** C3, as the spec states it, fails: a type in neither catalog that is
    not [custom] is displayed as a custom license, and its commercial term
    is displayed as stored, not as forbidden. *)
Lemma unrecognized_type_keeps_commercial :
  in_catalog (stored_type Sample.proprietary) Sample.CC = false
  ∧ in_catalog (stored_type Sample.proprietary) Sample.SOFTWARE = false
  ∧ Sample.main_fields_of (Sample.build Sample.proprietary false false)
    = Some [ field (u "📄 协议类型") (VStr (u "**自定义协议**")) false;
             field (u "✒️ 作者署名") (VStr not_set) false;
             field (u "🔁 二次传播") (VStr not_set) true;
             field (u "🎨 二次创作") (VStr not_set) true;
             field (u "💰 商业用途") (VStr (u "allowed for a fee")) true ]
  ∧ VStr (u "allowed for a fee") ≠ VStr forbidden.
Proof. vm_compute. repeat split; discriminate. Qed.

(** C9, as the spec states it, fails: details without [notes] get no
    additional-terms field, not one that shows the placeholder; and
    [full_text] is indexed, so that a software entry without it raises
    [KeyError]. So does a key that both catalogs hold, although each entry
    carries what its catalog promises: the CC entry alone is laid over
    the details (lines 240 to 243), and the software fields of line 291
    index the [full_text] that it does not carry. *)
Lemma absent_notes_and_full_text :
  Sample.main_fields_of (Sample.build ∅ true false)
  = Some [ field (u "📄 协议类型") (VStr (u "**自定义协议**")) false;
           field (u "✒️ 作者署名") (VStr not_set) false;
           field (u "🔁 二次传播") (VStr not_set) true;
           field (u "🎨 二次创作") (VStr not_set) true;
           field (u "💰 商业用途") (VStr not_set) true ]
  ∧ (build_license_embeds Sample.CC Sample.SOFTWARE_bare Sample.HELPER
                          Sample.LICENSE Sample.cmd Sample.config Sample.author
                          true None None false (Sample.store_of Sample.mit)).1
    = Raise (KeyError (u "full_text"))
  ∧ (build_license_embeds Sample.CC Sample.SOFTWARE_dual Sample.HELPER
                          Sample.LICENSE Sample.cmd Sample.config Sample.author
                          true None None false
                          (Sample.store_of Sample.cc_by_nc)).1
    = Raise (KeyError (u "full_text")).
Proof. vm_compute. repeat split; reflexivity. Qed.

Lemma commercial_cc_is_downgraded_witness :
  deref (Sample.store_of Sample.cc_by) (license_details Sample.config) !! u "type"
  = Some (VStr (u "CC BY 4.0"))
  ∧ is_Some (Sample.CC !! u "CC BY 4.0")
  ∧ contains (u "NC") (u "CC BY 4.0") = false
  ∧ follows_cc_pattern (u "CC BY 4.0") = true
  ∧ ∃ r h0,
      resolve_license Sample.CC Sample.SOFTWARE Sample.config false
                      (Sample.store_of Sample.cc_by) = (Ret r, h0)
      ∧ license_type r ≠ VStr (u "CC BY 4.0").
Proof.
  assert (deref (Sample.store_of Sample.cc_by) (license_details Sample.config)
            !! u "type" = Some (VStr (u "CC BY 4.0"))) as H1
    by (vm_compute; reflexivity).
  assert (is_Some (Sample.CC !! u "CC BY 4.0")) as H2
    by (vm_compute; eexists; reflexivity).
  assert (contains (u "NC") (u "CC BY 4.0") = false) as H3
    by (vm_compute; reflexivity).
  assert (follows_cc_pattern (u "CC BY 4.0") = true) as H4
    by (vm_compute; reflexivity).
  repeat (split; [assumption |]).
  destruct (commercial_cc_is_downgraded
              Sample.CC Sample.SOFTWARE Sample.HELPER Sample.LICENSE Sample.cmd Sample.config Sample.author None None true
              (Sample.store_of Sample.cc_by) (u "CC BY 4.0") H1 H2 H3 H4)
    as (r & d1 & w & Hres & Hne & _).
  exists r. eexists. split; [exact Hres | exact Hne].
Defined.

Lemma commercial_cc_outside_pattern_is_kept_witness :
  deref (Sample.store_of Sample.cc0) (license_details Sample.config) !! u "type"
  = Some (VStr (u "CC0 1.0"))
  ∧ is_Some (Sample.CC_with_cc0 !! u "CC0 1.0")
  ∧ contains (u "NC") (u "CC0 1.0") = false
  ∧ contains (u "CC BY") (u "CC0 1.0") = false
  ∧ u "CC0 1.0" ≠ custom
  ∧ ∃ r h0,
      resolve_license Sample.CC_with_cc0 Sample.SOFTWARE Sample.config false
                      (Sample.store_of Sample.cc0) = (Ret r, h0)
      ∧ license_type r = VStr (u "CC0 1.0")
      ∧ warning_message r
        = Some (downgrade_warning (u "CC0 1.0") (u "CC0 1.0")).
Proof.
  assert (deref (Sample.store_of Sample.cc0) (license_details Sample.config)
            !! u "type" = Some (VStr (u "CC0 1.0"))) as H1
    by (vm_compute; reflexivity).
  assert (is_Some (Sample.CC_with_cc0 !! u "CC0 1.0")) as H2
    by (vm_compute; eexists; reflexivity).
  assert (contains (u "NC") (u "CC0 1.0") = false) as H3
    by (vm_compute; reflexivity).
  assert (contains (u "CC BY") (u "CC0 1.0") = false) as H4
    by (vm_compute; reflexivity).
  assert (u "CC0 1.0" ≠ custom) as H5
    by (intros E; vm_compute in E; discriminate E).
  repeat (split; [assumption |]).
  destruct (commercial_cc_outside_pattern_is_kept
              Sample.CC_with_cc0 Sample.SOFTWARE Sample.config
              (Sample.store_of Sample.cc0) (u "CC0 1.0") H1 H2 H3 H4 H5)
    as (r & Hres & Hty & _ & Hw).
  exists r. eexists. split; [exact Hres |]. split; [exact Hty | exact Hw].
Defined.

Lemma nc_license_is_kept_witness :
  deref (Sample.store_of Sample.cc_by_nc_sa) (license_details Sample.config)
    !! u "type" = Some (VStr (u "CC BY-NC-SA 4.0"))
  ∧ is_Some (Sample.CC !! u "CC BY-NC-SA 4.0")
  ∧ contains (u "NC") (u "CC BY-NC-SA 4.0") = true
  ∧ Sample.build Sample.cc_by_nc_sa false true
    = Sample.build Sample.cc_by_nc_sa true true.
Proof.
  assert (deref (Sample.store_of Sample.cc_by_nc_sa)
                (license_details Sample.config)
            !! u "type" = Some (VStr (u "CC BY-NC-SA 4.0"))) as H1
    by (vm_compute; reflexivity).
  assert (is_Some (Sample.CC !! u "CC BY-NC-SA 4.0")) as H2
    by (vm_compute; eexists; reflexivity).
  assert (contains (u "NC") (u "CC BY-NC-SA 4.0") = true) as H3
    by (vm_compute; reflexivity).
  repeat (split; [assumption |]).
  exact (proj1 (proj2 (nc_license_is_kept
                         Sample.CC Sample.SOFTWARE Sample.HELPER Sample.LICENSE Sample.cmd Sample.config Sample.author None None true
                         (Sample.store_of Sample.cc_by_nc_sa)
                         (u "CC BY-NC-SA 4.0") H1 H2 H3))).
Defined.

Lemma custom_license_is_forced_witness :
  in_catalog (stored_type (deref (Sample.store_of Sample.for_a_fee)
                                 (license_details Sample.config)))
             Sample.CC = false
  ∧ in_catalog (stored_type (deref (Sample.store_of Sample.for_a_fee)
                                   (license_details Sample.config)))
               Sample.SOFTWARE = false
  ∧ ∃ r h0,
      resolve_license Sample.CC Sample.SOFTWARE Sample.config false
                      (Sample.store_of Sample.for_a_fee) = (Ret r, h0)
      ∧ warning_message r = None.
Proof.
  assert (in_catalog (stored_type (deref (Sample.store_of Sample.for_a_fee)
                                         (license_details Sample.config)))
                     Sample.CC = false) as H1
    by (vm_compute; reflexivity).
  assert (in_catalog (stored_type (deref (Sample.store_of Sample.for_a_fee)
                                         (license_details Sample.config)))
                     Sample.SOFTWARE = false) as H2
    by (vm_compute; reflexivity).
  repeat (split; [assumption |]).
  destruct (custom_license_is_forced
              Sample.CC Sample.SOFTWARE Sample.HELPER Sample.LICENSE Sample.cmd Sample.config Sample.author None None true
              (Sample.store_of Sample.for_a_fee) H1 H2)
    as (r & d1 & Hres & _ & _ & _ & Hw & _).
  exists r. eexists. split; [exact Hres | exact Hw].
Defined.

Lemma build_keeps_config_witness :
  is_Some (Sample.store_of Sample.cc_by !! license_details Sample.config)
  ∧ deref (Sample.build Sample.cc_by false true).2 (license_details Sample.config)
    = deref (Sample.store_of Sample.cc_by) (license_details Sample.config).
Proof.
  assert (is_Some (Sample.store_of Sample.cc_by !! license_details Sample.config))
    as H1 by (vm_compute; eexists; reflexivity).
  split; [assumption |].
  exact (proj1 (build_keeps_config
                  Sample.CC Sample.SOFTWARE Sample.HELPER Sample.LICENSE Sample.cmd Sample.config Sample.author false None None true
                  (Sample.store_of Sample.cc_by) H1)).
Defined.

Lemma main_color_tells_warning_witness :
  Sample.build Sample.cc_by false true
  = (Ret (Sample.result_of (Sample.build Sample.cc_by false true)),
     (Sample.build Sample.cc_by false true).2)
  ∧ ∃ main rest,
      Sample.result_of (Sample.build Sample.cc_by false true) = main :: rest.
Proof.
  assert (Sample.build Sample.cc_by false true
          = (Ret (Sample.result_of (Sample.build Sample.cc_by false true)),
             (Sample.build Sample.cc_by false true).2)) as H1
    by (vm_compute; reflexivity).
  split; [assumption |].
  destruct (main_color_tells_warning
              Sample.CC Sample.SOFTWARE Sample.HELPER Sample.LICENSE Sample.cmd Sample.config Sample.author false None None true
              (Sample.store_of Sample.cc_by) _ _ H1)
    as (r & h0 & main & rest & _ & Hm & _).
  exists main, rest. exact Hm.
Defined.


Lemma placeholder_names_license_witness :
  Sample.build Sample.cc_by_nc_sa true true
  = (Ret (Sample.result_of (Sample.build Sample.cc_by_nc_sa true true)),
     (Sample.build Sample.cc_by_nc_sa true true).2)
  ∧ Sample.overlaid_nc_sa !! u "derive"
    = Some (VStr (u "allowed under " ++ u "{license_type}" ++ []))
  ∧ brace_free (u "allowed under ") = true
  ∧ ∃ post1,
      deref (Sample.build Sample.cc_by_nc_sa true true).2
            (fresh (dom (Sample.store_of Sample.cc_by_nc_sa))) !! u "derive"
      = Some (VStr (u "allowed under " ++ u "CC BY-NC-SA 4.0" ++ post1)).
Proof.
  assert (Sample.build Sample.cc_by_nc_sa true true
          = (Ret (Sample.result_of (Sample.build Sample.cc_by_nc_sa true true)),
             (Sample.build Sample.cc_by_nc_sa true true).2)) as H1
    by (vm_compute; reflexivity).
  assert (resolve_license Sample.CC Sample.SOFTWARE Sample.config true
                          (Sample.store_of Sample.cc_by_nc_sa)
          = (Ret Sample.resolved_nc_sa,
             <[fresh (dom (Sample.store_of Sample.cc_by_nc_sa))
               := Sample.cc_by_nc_sa]> (Sample.store_of Sample.cc_by_nc_sa)))
    as H2 by (vm_compute; reflexivity).
  assert (apply_catalog Sample.CC Sample.SOFTWARE Sample.resolved_nc_sa
            (<[fresh (dom (Sample.store_of Sample.cc_by_nc_sa))
               := Sample.cc_by_nc_sa]> (Sample.store_of Sample.cc_by_nc_sa))
          = (Ret tt,
             <[fresh (dom (Sample.store_of Sample.cc_by_nc_sa))
               := Sample.overlaid_nc_sa]> (Sample.store_of Sample.cc_by_nc_sa)))
    as H3 by (vm_compute; reflexivity).
  assert (u "derive" ∈ term_keys) as H4
    by (apply (bool_decide_unpack _); vm_compute; exact I).
  assert (Sample.overlaid_nc_sa !! u "derive"
          = Some (VStr (u "allowed under " ++ u "{license_type}" ++ [])))
    as H5 by (vm_compute; reflexivity).
  assert (brace_free (u "allowed under ") = true) as H6
    by (vm_compute; reflexivity).
  repeat (split; [assumption |]).
  destruct (placeholder_names_license
              Sample.CC Sample.SOFTWARE Sample.HELPER Sample.LICENSE Sample.cmd Sample.config Sample.author true None None true
              (Sample.store_of Sample.cc_by_nc_sa) _ _ Sample.resolved_nc_sa
              Sample.cc_by_nc_sa Sample.overlaid_nc_sa (u "derive")
              (u "allowed under ") [] H1 H2 H3 H4 H5 H6)
    as (post1 & _ & Hd & _).
  exists post1. exact Hd.
Defined.

Lemma missing_fields_do_not_raise_witness :
  (∀ t e, Sample.CC !! t = Some e → is_Some (e !! u "url"))
  ∧ (∀ t e, Sample.SOFTWARE !! t = Some e →
            is_Some (e !! u "url") ∧ is_Some (e !! u "full_text"))
  ∧ (∀ t, is_Some (Sample.CC !! t) → Sample.SOFTWARE !! t = None)
  ∧ entry_ok (deref (Sample.store_of Sample.for_a_fee)
                    (license_details Sample.config)) = true
  ∧ ∃ main rest h1,
      Sample.build Sample.for_a_fee false true = (Ret (main :: rest), h1).
Proof.
  assert (entry_ok (deref (Sample.store_of Sample.for_a_fee)
                          (license_details Sample.config)) = true) as H5
    by (vm_compute; reflexivity).
  split; [exact sample_cc_urls |].
  split; [exact sample_software_keys |].
  split; [exact sample_catalogs_disjoint |].
  split; [exact H5 |].
  destruct (missing_fields_do_not_raise
              Sample.CC Sample.SOFTWARE Sample.HELPER Sample.LICENSE Sample.cmd Sample.config Sample.author false None None true
              (Sample.store_of Sample.for_a_fee)
              sample_cc_urls sample_software_keys sample_catalogs_disjoint
              sample_templates
              (λ key v, entry_ok_valid _ key v H5))
    as (r & h0 & d3 & main & rest & _ & Hb & _).
  exists main, rest. eexists. exact Hb.
Defined.

(** ** The helper panels *)

Section PanelFacts.

Variable SIGNATURE_HELPER : pystr.
Variables cmd_name cmd_name_panel : pystr.

Lemma first_with_id_some (items : list Item) (id : pystr) (item : Item) :
  first_with_id items id = Some item ↔
  ∃ before after,
    items = before ++ item :: after
    ∧ has_custom_id item id = true
    ∧ ∀ x, x ∈ before → has_custom_id x id = false.
Proof.
  induction items as [|y items IH]; simpl.
  - split; [done |]. intros (before & after & E & _). by destruct before.
  - destruct (has_custom_id y id) eqn:Ey.
    + split.
      * intros [= <-]. exists [], items. repeat split; [done |].
        by intros x ?%elem_of_nil.
      * intros (before & after & E & Hi & Hb).
        destruct before as [|z before]; simplify_eq/=; [done |].
        rewrite Hb in Ey by left. done.
    + rewrite IH. split.
      * intros (before & after & -> & Hi & Hb).
        exists (y :: before), after. repeat split; [done |].
        intros x [-> | ?]%elem_of_cons; auto.
      * intros (before & after & E & Hi & Hb).
        destruct before as [|z before]; simplify_eq/=; [congruence |].
        exists before, after. repeat split; [done |].
        intros x Hx. apply Hb. by right.
Qed.

Lemma first_with_id_none (items : list Item) (id : pystr) :
  first_with_id items id = None ↔
  ∀ x, x ∈ items → has_custom_id x id = false.
Proof.
  induction items as [|y items IH]; simpl.
  - split; [| done]. by intros _ x ?%elem_of_nil.
  - destruct (has_custom_id y id) eqn:Ey.
    + split; [done |]. intros H. rewrite H in Ey by left. done.
    + rewrite IH. split.
      * intros H x [-> | ?]%elem_of_cons; auto.
      * intros H x Hx. apply H. by right.
Qed.

(** X14. [get_item_by_id] returns the first child of the view whose
    [custom_id] is the one asked for, and [None] exactly when no child has
    it; a child without the attribute, or with another value of it, is
    passed over. *)
Theorem get_item_by_id_first (view : View) (id : pystr) :
  (∀ item,
     get_item_by_id view id = Some item ↔
     ∃ before after,
       children view = before ++ item :: after
       ∧ custom_id item = Some (VStr id)
       ∧ ∀ x, x ∈ before → custom_id x ≠ Some (VStr id))
  ∧ (get_item_by_id view id = None ↔
     ∀ x, x ∈ children view → custom_id x ≠ Some (VStr id)).
Proof.
  assert (∀ x, has_custom_id x id = true ↔ custom_id x = Some (VStr id))
    as Hid.
  { intros x. unfold has_custom_id. destruct (custom_id x) as [v|]; [| done].
    rewrite bool_decide_eq_true. split; congruence. }
  assert (∀ x, has_custom_id x id = false ↔ custom_id x ≠ Some (VStr id))
    as Hnid.
  { intros x. rewrite <- Hid. by destruct (has_custom_id x id). }
  unfold get_item_by_id. split.
  - intros item. rewrite first_with_id_some.
    split; intros (before & after & E & Hi & Hb); exists before, after;
      (split; [done |]); (split; [by apply Hid |]);
      intros x Hx; apply Hnid; auto.
  - rewrite first_with_id_none.
    split; intros H x Hx; apply Hnid; auto.
Qed.

(** X15. The footer tells the signature: it starts with it, and two
    signatures with the same footer are the same signature. *)
Theorem footer_tells_signature (s1 s2 : pystr) :
  startswith s1 (build_footer_text cmd_name cmd_name_panel s1) = true
  ∧ (build_footer_text cmd_name cmd_name_panel s1
     = build_footer_text cmd_name cmd_name_panel s2 → s1 = s2).
Proof.
  split; [apply startswith_app |]. unfold build_footer_text.
  by intros E%app_inv_tail.
Qed.

(** The text of a switch tells its state. *)
Lemma switch_text_inj (b b1 : bool) (x y : pystr) :
  (if b then u "✅ 启用" else u "❌ 禁用") ++ x
  = (if b1 then u "✅ 启用" else u "❌ 禁用") ++ y →
  b = b1 ∧ x = y.
Proof.
  assert (u "✅ 启用" = [9989; 32; 21551; 29992]) as -> by (by vm_compute).
  assert (u "❌ 禁用" = [10060; 32; 31105; 29992]) as -> by (by vm_compute).
  destruct b, b1; cbn [app]; intros E; by simplify_eq.
Qed.

(** X16. The settings panel shows the three switches and nothing else:
    two configurations have the same panel exactly when they have the same
    [bot_enabled], [auto_post] and [require_confirmation], whatever their
    license details; the panel is blurple and carries the helper's
    footer. *)
Theorem settings_panel_tells_switches (c1 c2 : LicenseConfig) :
  helper_footer (build_settings_embed SIGNATURE_HELPER cmd_name cmd_name_panel c1)
  = build_footer_text cmd_name cmd_name_panel SIGNATURE_HELPER
  ∧ helper_color
      (build_settings_embed SIGNATURE_HELPER cmd_name cmd_name_panel c1)
    = helper_blurple
  ∧ (build_settings_embed SIGNATURE_HELPER cmd_name cmd_name_panel c1
     = build_settings_embed SIGNATURE_HELPER cmd_name cmd_name_panel c2 ↔
     bot_enabled c1 = bot_enabled c2
     ∧ auto_post c1 = auto_post c2
     ∧ require_confirmation c1 = require_confirmation c2).
Proof.
  split; [done |]. split; [done |]. split.
  - intros E%(f_equal helper_description). revert E.
    unfold build_settings_embed, create_helper_embed.
    cbn [helper_description app join]. rewrite <- !app_assoc.
    intros E. apply app_inv_head in E.
    apply switch_text_inj in E as [E1 E]. do 6 apply app_inv_head in E.
    apply switch_text_inj in E as [E2 E]. do 6 apply app_inv_head in E.
    apply switch_text_inj in E as [E3 _]. done.
  - intros (E1 & E2 & E3). unfold build_settings_embed.
    by rewrite E1, E2, E3.
Qed.

End PanelFacts.

(** ** The candidate for the downgrade *)

(** X4. A name outside the pattern of the catalog's keys is its own
    candidate: [replace] finds nothing to replace. *)
Theorem nc_version_outside_pattern (t : pystr) :
  follows_cc_pattern t = false → nc_version t = t.
Proof. apply replace_absent. Qed.

(** X5. For a name that starts with [CC BY] and does not hold it again, the
    candidate is the name with [-NC] put after [CC BY], as the comment of
    lines 213 and 214 has it. *)
Theorem nc_version_inserts_nc (rest : pystr) :
  contains (u "CC BY") rest = false →
  nc_version (u "CC BY" ++ rest) = u "CC BY-NC" ++ rest.
Proof.
  intros Hr. unfold nc_version. rewrite replace_head.
  - by rewrite replace_absent.
  - intros E. by vm_compute in E.
Qed.

(** X6. For a name within the pattern, the candidate carries the NC marker
    and is another name. *)
Theorem nc_version_is_noncommercial (t : pystr) :
  follows_cc_pattern t = true →
  contains (u "NC") (nc_version t) = true ∧ nc_version t ≠ t.
Proof.
  intros Hby. split; [by apply nc_version_marker | by apply nc_version_changes].
Qed.

(** ** Texts that the beautifier leaves as they are *)

(** A text in which no scheme occurs. *)
Definition scheme_free (s : pystr) : bool :=
  negb (contains (u "http://") s) && negb (contains (u "https://") s).

(** The two characters before the position that follows [s]. *)
Fixpoint behind (p2 p1 : option N) (s : pystr) : option N * option N :=
  match s with
  | [] => (p2, p1)
  | c :: s1 => behind p1 (Some c) s1
  end.

Section LinkFixedPoints.

Lemma match_url_no_scheme (s : pystr) :
  startswith (u "http://") s = false →
  startswith (u "https://") s = false →
  match_url s = None.
Proof. unfold match_url. by intros -> ->. Qed.

(** A pattern that starts before [c] and does not hold [c] ends before
    [c]. *)
Lemma startswith_within (p b rest : pystr) (c : N) :
  forallb (λ x, negb (x =? c)) p = true →
  startswith p (b ++ c :: rest) = true → startswith p b = true.
Proof.
  revert b. induction p as [|x p IH]; intros b Hp; [done |].
  simpl in Hp. apply andb_true_iff in Hp as [Hx Hp].
  destruct b as [|y b]; simpl.
  - rewrite andb_true_iff. intros [E _]. by rewrite E in Hx.
  - rewrite !andb_true_iff. intros [-> Hs]. split; [done |]. by apply IH.
Qed.

Lemma contains_suffix (p a b : pystr) :
  startswith p b = true → contains p (a ++ b) = true.
Proof.
  intros [k ->]%startswith_prefix. apply contains_infix. by exists a, k.
Qed.

(** No match starts in a text without schemes, when the character after
    the text is not one of a scheme, or when nothing follows. *)
Lemma scheme_free_no_match (s a b rest : pystr) (c : N) :
  scheme_free s = true → s = a ++ b →
  forallb (λ x, negb (x =? c)) (u "https://") = true →
  match_url (b ++ c :: rest) = None.
Proof.
  unfold scheme_free. intros [H7 H8]%andb_true_iff -> Hc.
  apply negb_true_iff in H7, H8.
  assert (forallb (λ x, negb (x =? c)) (u "http://") = true) as Hc7.
  { revert Hc. assert (u "https://" = [104; 116; 116; 112; 115; 58; 47; 47])
      as -> by (by vm_compute).
    assert (u "http://" = [104; 116; 116; 112; 58; 47; 47])
      as -> by (by vm_compute).
    simpl. rewrite !andb_true_iff. tauto. }
  apply match_url_no_scheme.
  - destruct (startswith (u "http://") (b ++ c :: rest)) eqn:E; [| done].
    apply startswith_within in E; [| done].
    by rewrite (contains_suffix _ a b E) in H7.
  - destruct (startswith (u "https://") (b ++ c :: rest)) eqn:E; [| done].
    apply startswith_within in E; [| done].
    by rewrite (contains_suffix _ a b E) in H8.
Qed.

Lemma scheme_free_no_match_end (s a b : pystr) :
  scheme_free s = true → s = a ++ b → match_url b = None.
Proof.
  unfold scheme_free. intros [H7 H8]%andb_true_iff ->.
  apply negb_true_iff in H7, H8. apply match_url_no_scheme.
  - destruct (startswith (u "http://") b) eqn:E; [| done].
    by rewrite (contains_suffix _ a b E) in H7.
  - destruct (startswith (u "https://") b) eqn:E; [| done].
    by rewrite (contains_suffix _ a b E) in H8.
Qed.

(** Where no match starts, the pieces are the characters. *)
Lemma pieces_from_literal (s rest : pystr) : ∀ p2 p1,
  (∀ a b, s = a ++ b → match_url (b ++ rest) = None) →
  pieces_from 0 p2 p1 (s ++ rest)
  = map Lit s ++ pieces_from 0 (behind p2 p1 s).1 (behind p2 p1 s).2 rest.
Proof.
  induction s as [|c s IH]; intros p2 p1 Hno; [done |].
  change ((c :: s) ++ rest) with (c :: (s ++ rest)). cbn [pieces_from].
  change (c :: (s ++ rest)) with ((c :: s) ++ rest).
  unfold url_pattern_at. rewrite (Hno [] (c :: s) eq_refl).
  destruct (behind_link p2 p1); cbn [map app behind]; f_equal; apply IH;
    intros a b ->; by apply (Hno (c :: a) b).
Qed.

Lemma pieces_from_skip_all (s : pystr) : ∀ skip p2 p1,
  (length s ≤ skip)%nat → pieces_from skip p2 p1 s = [].
Proof.
  induction s as [|c s IH]; intros skip p2 p1 Hk; [done |].
  destruct skip as [|k]; simpl in *; [lia |]. apply IH. lia.
Qed.

Lemma concat_sub_lit (s : pystr) : concat (map sub_piece (map Lit s)) = s.
Proof. induction s as [|c s IH]; simpl; by rewrite ?IH. Qed.

(** A text without schemes has no match. *)
Lemma pieces_scheme_free (s : pystr) p2 p1 :
  scheme_free s = true → pieces_from 0 p2 p1 s = map Lit s.
Proof.
  intros Hs. rewrite <- (app_nil_r s) at 1. rewrite pieces_from_literal.
  - by rewrite app_nil_r.
  - intros a b E. rewrite app_nil_r. by eapply scheme_free_no_match_end.
Qed.

Lemma scheme_tail_free (scheme bp : pystr) :
  scheme = u "https://" ∨ scheme = u "http://" →
  scheme_free bp = true →
  ∃ tail, scheme = 104 :: tail ∧ scheme_free (tail ++ bp) = true.
Proof.
  unfold scheme_free. intros Hs Hbp.
  assert (u "https://" = [104; 116; 116; 112; 115; 58; 47; 47]) as E8
    by (by vm_compute).
  assert (u "http://" = [104; 116; 116; 112; 58; 47; 47]) as E7
    by (by vm_compute).
  rewrite E8, E7 in *.
  destruct Hs as [-> | ->]; eexists; (split; [reflexivity |]);
    simpl; exact Hbp.
Qed.

(** The target of a Markdown link is passed over when no scheme occurs
    before the link's [](], nor after the scheme of the target. *)
Lemma pieces_link_target (pre scheme bp : pystr) :
  scheme_free pre = true →
  scheme = u "https://" ∨ scheme = u "http://" →
  scheme_free bp = true →
  pieces (pre ++ u "](" ++ scheme ++ bp)
  = map Lit (pre ++ u "](" ++ scheme ++ bp).
Proof.
  intros Hpre Hs Hbp.
  destruct (scheme_tail_free scheme bp Hs Hbp) as (tail & -> & Htail).
  assert (u "](" = [93; 40]) as -> by (by vm_compute).
  unfold pieces. rewrite pieces_from_literal.
  2:{ intros a b E. apply (scheme_free_no_match pre a b _ 93 Hpre E).
      by vm_compute. }
  rewrite map_app. f_equal.
  destruct (behind None None pre) as [q2 q1]. cbn [fst snd].
  cbn [app pieces_from map]. unfold url_pattern_at.
  assert (∀ x, match_url (93 :: x) = None) as -> by (intros; by vm_compute).
  assert (∀ x, match_url (40 :: x) = None) as -> by (intros; by vm_compute).
  replace (behind_link (Some 93) (Some 40)) with true by (by vm_compute).
  destruct (behind_link q2 q1), (behind_link q1 (Some 93)); cbn [map];
    do 3 f_equal; by apply pieces_scheme_free.
Qed.

Lemma format_of_literal_pieces (text : pystr) :
  pieces text = map Lit text → _format_links_in_text text = text.
Proof.
  intros E. unfold _format_links_in_text. rewrite E, concat_sub_lit.
  by destruct (nonempty text).
Qed.

Lemma scheme_free_app_l (s t : pystr) :
  scheme_free (s ++ t) = true → scheme_free s = true.
Proof.
  unfold scheme_free. rewrite !andb_true_iff, !negb_true_iff.
  intros [H7 H8]. split.
  - destruct (contains (u "http://") s) eqn:E; [| done].
    by rewrite (contains_app_l _ s t E) in H7.
  - destruct (contains (u "https://") s) eqn:E; [| done].
    by rewrite (contains_app_l _ s t E) in H8.
Qed.

Lemma scheme_free_cons (c : N) (s : pystr) :
  (c =? 104) = false → scheme_free s = true → scheme_free (c :: s) = true.
Proof.
  unfold scheme_free. intros Hc Hs.
  assert (u "https://" = [104; 116; 116; 112; 115; 58; 47; 47]) as E8
    by (by vm_compute).
  assert (u "http://" = [104; 116; 116; 112; 58; 47; 47]) as E7
    by (by vm_compute).
  rewrite E8, E7 in *. cbn [contains startswith].
  rewrite (N.eqb_sym 104 c), Hc. exact Hs.
Qed.

(** A pattern that occurs in [s ++ [c]] and does not hold [c] occurs in
    [s]. *)
Lemma contains_snoc (p s : pystr) (c : N) :
  p ≠ [] → forallb (λ x, negb (x =? c)) p = true →
  contains p (s ++ [c]) = true → contains p s = true.
Proof.
  intros Hp Hc. induction s as [|x s IH]; simpl.
  - rewrite !orb_false_r. intros [E | E]%orb_true_iff; [| done].
    by apply (startswith_within p [] [] c Hc) in E.
  - rewrite !orb_true_iff. intros [E | E].
    + left. by apply (startswith_within p (x :: s) [] c Hc).
    + right. by apply IH.
Qed.

Lemma scheme_free_snoc (s : pystr) (c : N) :
  forallb (λ x, negb (x =? c)) (u "https://") = true →
  scheme_free s = true → scheme_free (s ++ [c]) = true.
Proof.
  unfold scheme_free. rewrite !andb_true_iff, !negb_true_iff.
  intros Hc [H7 H8].
  assert (forallb (λ x, negb (x =? c)) (u "http://") = true) as Hc7.
  { revert Hc. assert (u "https://" = [104; 116; 116; 112; 115; 58; 47; 47])
      as -> by (by vm_compute).
    assert (u "http://" = [104; 116; 116; 112; 58; 47; 47])
      as -> by (by vm_compute).
    simpl. rewrite !andb_true_iff. tauto. }
  split.
  - destruct (contains (u "http://") (s ++ [c])) eqn:E; [| done].
    apply contains_snoc in E; [congruence | | done].
    intros E1. by vm_compute in E1.
  - destruct (contains (u "https://") (s ++ [c])) eqn:E; [| done].
    apply contains_snoc in E; [congruence | | done].
    intros E1. by vm_compute in E1.
Qed.

Lemma url_run_all (body : pystr) :
  forallb url_char body = true → url_run body = body.
Proof.
  induction body as [|c body IH]; simpl; [done |].
  intros [-> Hb]%andb_true_iff. by rewrite IH.
Qed.

(** A scheme followed by URL characters is one match. *)
Lemma match_plain_url (scheme body : pystr) :
  scheme = u "https://" ∨ scheme = u "http://" →
  body ≠ [] → forallb url_char body = true →
  match_url (scheme ++ body) = Some (scheme ++ body).
Proof.
  intros Hs Hne Hb. unfold match_url. destruct Hs as [-> | ->].
  - rewrite startswith_app.
    replace (drop 8 (u "https://" ++ body)) with body
      by (symmetry; apply (strip_scheme_https body)).
    rewrite url_run_all by done. by destruct body.
  - replace (startswith (u "https://") (u "http://" ++ body)) with false
      by (vm_compute; reflexivity).
    rewrite startswith_app.
    replace (drop 7 (u "http://" ++ body)) with body.
    + rewrite url_run_all by done. by destruct body.
    + pose proof (strip_scheme_http body) as E. unfold strip_scheme in E.
      replace (startswith (u "https://") (u "http://" ++ body)) with false in E
        by (vm_compute; reflexivity).
      by rewrite startswith_app in E.
Qed.

Lemma pieces_plain_url (scheme body : pystr) :
  scheme = u "https://" ∨ scheme = u "http://" →
  body ≠ [] → forallb url_char body = true →
  pieces (scheme ++ body) = [Url (scheme ++ body)].
Proof.
  intros Hs Hne Hb. pose proof (match_plain_url scheme body Hs Hne Hb) as Hm.
  unfold pieces. destruct (scheme ++ body) as [|c s] eqn:E.
  - by apply app_eq_nil in E as [_ ?].
  - cbn [pieces_from]. unfold url_pattern_at. cbn [behind_link].
    rewrite Hm. f_equal. apply pieces_from_skip_all. simpl. lia.
Qed.

(** The label of a plain URL holds no scheme. *)
Lemma label_scheme_free (scheme body : pystr) :
  scheme = u "https://" ∨ scheme = u "http://" →
  scheme_free body = true →
  ∃ label, replacer (scheme ++ body) = markdown_link label (scheme ++ body)
           ∧ scheme_free (u "[" ++ label) = true.
Proof.
  intros Hs Hb. unfold replacer.
  destruct (contains (u "discord.com/") (scheme ++ body)).
  - exists discord_label. split; [done |]. by vm_compute.
  - exists (strip_slash (strip_scheme (scheme ++ body))). split; [done |].
    replace (strip_scheme (scheme ++ body)) with body
      by (by destruct Hs as [-> | ->];
            [rewrite strip_scheme_https | rewrite strip_scheme_http]).
    assert (u "[" = [91]) as -> by (by vm_compute).
    apply scheme_free_cons; [done |].
    destruct (strip_slash_spec body) as [(l & E & ->) | [_ ->]]; [| done].
    rewrite E in Hb. by apply scheme_free_app_l in Hb.
Qed.

End LinkFixedPoints.

(** X1. A text in which no scheme occurs is returned as it is. *)
Theorem text_without_scheme_is_kept (text : pystr) :
  scheme_free text = true → _format_links_in_text text = text.
Proof.
  intros Hs. apply format_of_literal_pieces. by apply pieces_scheme_free.
Qed.

(** X2. A Markdown link is returned as it is: a text that holds no scheme
    before the [](] of a link, and none after the scheme of its target, in
    the target or behind it, is not changed. *)
Theorem markdown_link_is_kept (pre scheme rest : pystr) :
  scheme_free pre = true →
  scheme = u "https://" ∨ scheme = u "http://" →
  scheme_free rest = true →
  _format_links_in_text (pre ++ u "](" ++ scheme ++ rest)
  = pre ++ u "](" ++ scheme ++ rest.
Proof.
  intros Hpre Hs Hrest. apply format_of_literal_pieces.
  by apply pieces_link_target.
Qed.

(** X3. A URL alone, without a second scheme in it, is beautified once
    and for all: the first pass wraps it, the second pass returns the
    wrapped link as it is. *)
Theorem plain_url_is_wrapped_once (scheme body : pystr) :
  scheme = u "https://" ∨ scheme = u "http://" →
  body ≠ [] → forallb url_char body = true →
  scheme_free body = true →
  _format_links_in_text (scheme ++ body) = replacer (scheme ++ body)
  ∧ _format_links_in_text (_format_links_in_text (scheme ++ body))
    = _format_links_in_text (scheme ++ body).
Proof.
  intros Hs Hne Hb Hfree.
  assert (_format_links_in_text (scheme ++ body) = replacer (scheme ++ body))
    as Honce.
  { unfold _format_links_in_text. rewrite pieces_plain_url by done.
    cbn [map concat sub_piece]. rewrite app_nil_r.
    destruct (scheme ++ body) eqn:E; [| done].
    by apply app_eq_nil in E as [_ ?]. }
  split; [done |]. rewrite Honce.
  destruct (label_scheme_free scheme body Hs Hfree) as (label & -> & Hl).
  unfold markdown_link.
  replace (u "[" ++ label ++ u "](" ++ (scheme ++ body) ++ u ")")
    with ((u "[" ++ label) ++ u "](" ++ scheme ++ (body ++ u ")"))
    by (by rewrite <- !app_assoc).
  apply format_of_literal_pieces, pieces_link_target; try done.
  assert (u ")" = [41]) as -> by (by vm_compute).
  apply scheme_free_snoc; [by vm_compute | done].
Qed.

(** ** A bare URL in a text *)


Section BareUrl.













End BareUrl.


(** ** Concrete runs of the further properties *)


Lemma text_without_scheme_is_kept_witness :
  scheme_free (u "no link here") = true
  ∧ _format_links_in_text (u "no link here") = u "no link here".
Proof.
  assert (scheme_free (u "no link here") = true) as H1
    by (vm_compute; reflexivity).
  split; [exact H1 | exact (text_without_scheme_is_kept _ H1)].
Defined.

Lemma markdown_link_is_kept_witness :
  scheme_free (u "see [the docs") = true
  ∧ scheme_free (u "example.com/a) for more") = true
  ∧ _format_links_in_text
      (u "see [the docs" ++ u "](" ++ u "https://"
         ++ u "example.com/a) for more")
    = u "see [the docs" ++ u "](" ++ u "https://"
        ++ u "example.com/a) for more".
Proof.
  assert (scheme_free (u "see [the docs") = true) as H1
    by (vm_compute; reflexivity).
  assert (scheme_free (u "example.com/a) for more") = true) as H2
    by (vm_compute; reflexivity).
  split; [exact H1 |]. split; [exact H2 |].
  exact (markdown_link_is_kept _ (u "https://") _ H1 (or_introl eq_refl) H2).
Defined.

Lemma plain_url_is_wrapped_once_witness :
  u "example.com/" ≠ []
  ∧ forallb url_char (u "example.com/") = true
  ∧ scheme_free (u "example.com/") = true
  ∧ _format_links_in_text
      (_format_links_in_text (u "https://" ++ u "example.com/"))
    = _format_links_in_text (u "https://" ++ u "example.com/").
Proof.
  assert (u "example.com/" ≠ []) as H1
    by (intros E; vm_compute in E; discriminate E).
  assert (forallb url_char (u "example.com/") = true) as H2
    by (vm_compute; reflexivity).
  assert (scheme_free (u "example.com/") = true) as H3
    by (vm_compute; reflexivity).
  split; [exact H1 |]. split; [exact H2 |]. split; [exact H3 |].
  exact (proj2 (plain_url_is_wrapped_once (u "https://") _
                  (or_introl eq_refl) H1 H2 H3)).
Defined.

Lemma nc_version_outside_pattern_witness :
  follows_cc_pattern (u "CC0 1.0") = false
  ∧ nc_version (u "CC0 1.0") = u "CC0 1.0".
Proof.
  assert (follows_cc_pattern (u "CC0 1.0") = false) as H1
    by (vm_compute; reflexivity).
  split; [exact H1 | exact (nc_version_outside_pattern _ H1)].
Defined.

Lemma nc_version_inserts_nc_witness :
  contains (u "CC BY") (u "-SA 4.0") = false
  ∧ nc_version (u "CC BY" ++ u "-SA 4.0") = u "CC BY-NC" ++ u "-SA 4.0".
Proof.
  assert (contains (u "CC BY") (u "-SA 4.0") = false) as H1
    by (vm_compute; reflexivity).
  split; [exact H1 | exact (nc_version_inserts_nc _ H1)].
Defined.

Lemma nc_version_is_noncommercial_witness :
  follows_cc_pattern (u "CC BY 4.0") = true
  ∧ contains (u "NC") (nc_version (u "CC BY 4.0")) = true.
Proof.
  assert (follows_cc_pattern (u "CC BY 4.0") = true) as H1
    by (vm_compute; reflexivity).
  split; [exact H1 | exact (proj1 (nc_version_is_noncommercial _ H1))].
Defined.

Lemma downgrade_is_stable_witness :
  resolve_license Sample.CC Sample.SOFTWARE Sample.config false
                  (Sample.store_of Sample.cc_by)
  = (Ret Sample.resolved_cc_by,
     <[fresh (dom (Sample.store_of Sample.cc_by)) := Sample.downgraded_cc_by]>
       (Sample.store_of Sample.cc_by))
  ∧ deref (Sample.store_of Sample.downgraded_cc_by)
          (license_details Sample.config) = Sample.downgraded_cc_by
  ∧ ∃ r1 h2,
      resolve_license Sample.CC Sample.SOFTWARE Sample.config false
                      (Sample.store_of Sample.downgraded_cc_by) = (Ret r1, h2)
      ∧ warning_message r1 = None.
Proof.
  assert (resolve_license Sample.CC Sample.SOFTWARE Sample.config false
                          (Sample.store_of Sample.cc_by)
          = (Ret Sample.resolved_cc_by,
             <[fresh (dom (Sample.store_of Sample.cc_by))
               := Sample.downgraded_cc_by]> (Sample.store_of Sample.cc_by)))
    as H1 by (vm_compute; reflexivity).
  assert (∀ t,
            stored_type (deref (Sample.store_of Sample.cc_by)
                               (license_details Sample.config)) = VStr t →
            is_Some (Sample.CC !! t) → follows_cc_pattern t = true) as H2.
  { intros t Ht _. vm_compute in Ht. injection Ht as <-.
    vm_compute. reflexivity. }
  assert (deref (Sample.store_of Sample.downgraded_cc_by)
                (license_details Sample.config) = Sample.downgraded_cc_by)
    as H3 by (vm_compute; reflexivity).
  split; [exact H1 |]. split; [exact H3 |].
  destruct (downgrade_is_stable
              Sample.CC Sample.SOFTWARE Sample.config Sample.config
              (Sample.store_of Sample.cc_by)
              (Sample.store_of Sample.downgraded_cc_by)
              Sample.resolved_cc_by Sample.downgraded_cc_by H1 H2 H3)
    as (r1 & Hres & _ & Hw).
  exists r1. eexists. split; [exact Hres | exact Hw].
Defined.

Lemma warning_iff_commercial_cc_witness :
  resolve_license Sample.CC Sample.SOFTWARE Sample.config false
                  (Sample.store_of Sample.cc_by)
  = (Ret Sample.resolved_cc_by,
     <[fresh (dom (Sample.store_of Sample.cc_by)) := Sample.downgraded_cc_by]>
       (Sample.store_of Sample.cc_by))
  ∧ (is_Some (warning_message Sample.resolved_cc_by)
     ↔ false = false
       ∧ ∃ t, stored_type (deref (Sample.store_of Sample.cc_by)
                                 (license_details Sample.config)) = VStr t
              ∧ t ≠ custom
              ∧ is_Some (Sample.CC !! t)
              ∧ contains (u "NC") t = false).
Proof.
  assert (resolve_license Sample.CC Sample.SOFTWARE Sample.config false
                          (Sample.store_of Sample.cc_by)
          = (Ret Sample.resolved_cc_by,
             <[fresh (dom (Sample.store_of Sample.cc_by))
               := Sample.downgraded_cc_by]> (Sample.store_of Sample.cc_by)))
    as H1 by (vm_compute; reflexivity).
  split; [exact H1 |].
  exact (warning_iff_commercial_cc
           Sample.CC Sample.SOFTWARE Sample.config false
           (Sample.store_of Sample.cc_by) _ _ H1).
Defined.

Lemma software_license_is_kept_witness :
  stored_type (deref (Sample.store_of Sample.mit)
                     (license_details Sample.config)) = VStr (u "MIT")
  ∧ is_Some (Sample.SOFTWARE !! u "MIT")
  ∧ Sample.CC !! u "MIT" = None
  ∧ u "MIT" ≠ custom
  ∧ Sample.build Sample.mit false true = Sample.build Sample.mit true true.
Proof.
  assert (stored_type (deref (Sample.store_of Sample.mit)
                             (license_details Sample.config))
          = VStr (u "MIT")) as H1 by (vm_compute; reflexivity).
  assert (is_Some (Sample.SOFTWARE !! u "MIT")) as H2
    by (vm_compute; eexists; reflexivity).
  assert (Sample.CC !! u "MIT" = None) as H3 by (vm_compute; reflexivity).
  assert (u "MIT" ≠ custom) as H4
    by (intros E; vm_compute in E; discriminate E).
  repeat (split; [assumption |]).
  exact (proj1 (software_license_is_kept
                  Sample.CC Sample.SOFTWARE Sample.HELPER Sample.LICENSE
                  Sample.cmd Sample.config Sample.author None None true
                  (Sample.store_of Sample.mit) (u "MIT") H1 H2 H3 H4)).
Defined.

Lemma cc_license_shows_no_notes_witness :
  Sample.build Sample.cc_with_notes true false
  = (Ret (Sample.result_of (Sample.build Sample.cc_with_notes true false)),
     (Sample.build Sample.cc_with_notes true false).2)
  ∧ Sample.cc_with_notes !! u "notes" = Some (VStr (u "ask me first"))
  ∧ ∃ main rest,
      Sample.result_of (Sample.build Sample.cc_with_notes true false)
      = main :: rest
      ∧ length (fields main) = 5%nat.
Proof.
  assert (Sample.build Sample.cc_with_notes true false
          = (Ret (Sample.result_of
                    (Sample.build Sample.cc_with_notes true false)),
             (Sample.build Sample.cc_with_notes true false).2)) as H1
    by (vm_compute; reflexivity).
  assert (resolve_license Sample.CC Sample.SOFTWARE Sample.config true
                          (Sample.store_of Sample.cc_with_notes)
          = (Ret Sample.resolved_nc,
             (resolve_license Sample.CC Sample.SOFTWARE Sample.config true
                              (Sample.store_of Sample.cc_with_notes)).2))
    as H2 by (vm_compute; reflexivity).
  split; [exact H1 |]. split; [vm_compute; reflexivity |].
  destruct (cc_license_shows_no_notes
              Sample.CC Sample.SOFTWARE Sample.HELPER Sample.LICENSE
              Sample.cmd Sample.config Sample.author true None None false
              (Sample.store_of Sample.cc_with_notes) _ _ Sample.resolved_nc _
              H1 H2 eq_refl)
    as (main & rest & Hm & _ & Hnames).
  exists main, rest. split; [exact Hm |].
  rewrite <- (length_fmap field_name), (Hnames eq_refl). reflexivity.
Defined.

Lemma catalog_entry_wins_witness :
  Sample.build Sample.cc_with_notes true false
  = (Ret (Sample.result_of (Sample.build Sample.cc_with_notes true false)),
     (Sample.build Sample.cc_with_notes true false).2)
  ∧ Sample.cc_with_notes !! u "commercial" = Some (VStr (u "allowed"))
  ∧ Sample.nc_entry !! u "commercial" = Some (VStr forbidden)
  ∧ subst_value (placeholder_replacement Sample.resolved_nc)
                (Some (VStr forbidden))
    = Ret (deref (Sample.build Sample.cc_with_notes true false).2
                 (fresh (dom (Sample.store_of Sample.cc_with_notes)))
             !! u "commercial").
Proof.
  assert (Sample.build Sample.cc_with_notes true false
          = (Ret (Sample.result_of
                    (Sample.build Sample.cc_with_notes true false)),
             (Sample.build Sample.cc_with_notes true false).2)) as H1
    by (vm_compute; reflexivity).
  assert (resolve_license Sample.CC Sample.SOFTWARE Sample.config true
                          (Sample.store_of Sample.cc_with_notes)
          = (Ret Sample.resolved_nc,
             (resolve_license Sample.CC Sample.SOFTWARE Sample.config true
                              (Sample.store_of Sample.cc_with_notes)).2))
    as H2 by (vm_compute; reflexivity).
  assert (Sample.CC !! u "CC BY-NC 4.0" = Some Sample.nc_entry) as H3
    by (vm_compute; reflexivity).
  assert (Sample.nc_entry !! u "commercial" = Some (VStr forbidden)) as H4
    by (vm_compute; reflexivity).
  assert (u "commercial" ∈ term_keys) as H5
    by (apply (bool_decide_unpack _); vm_compute; exact I).
  split; [exact H1 |]. split; [vm_compute; reflexivity |].
  split; [exact H4 |].
  exact (proj2 (catalog_entry_wins
                  Sample.CC Sample.SOFTWARE Sample.HELPER Sample.LICENSE
                  Sample.cmd Sample.config Sample.author true None None false
                  (Sample.store_of Sample.cc_with_notes) _ _
                  Sample.resolved_nc _ (u "CC BY-NC 4.0") Sample.nc_entry
                  (u "commercial") (VStr forbidden)
                  H1 H2 eq_refl (or_introl (conj eq_refl H3)) H4) H5).
Defined.

Lemma rejected_template_raises_witness :
  in_catalog (stored_type (deref (Sample.store_of Sample.bad_template)
                                 (license_details Sample.config)))
             Sample.CC = false
  ∧ in_catalog (stored_type (deref (Sample.store_of Sample.bad_template)
                                   (license_details Sample.config)))
               Sample.SOFTWARE = false
  ∧ py_format (u "share {freely}") same_terms = Raise FormatError
  ∧ (Sample.build Sample.bad_template true true).1 = Raise FormatError.
Proof.
  assert (in_catalog (stored_type (deref (Sample.store_of Sample.bad_template)
                                         (license_details Sample.config)))
                     Sample.CC = false) as H1 by (vm_compute; reflexivity).
  assert (in_catalog (stored_type (deref (Sample.store_of Sample.bad_template)
                                         (license_details Sample.config)))
                     Sample.SOFTWARE = false) as H2
    by (vm_compute; reflexivity).
  assert (deref (Sample.store_of Sample.bad_template)
                (license_details Sample.config) !! u "reproduce"
          = Some (VStr (u "share {freely}"))) as H3
    by (vm_compute; reflexivity).
  assert (py_format (u "share {freely}") same_terms = Raise FormatError)
    as H4 by (vm_compute; reflexivity).
  repeat (split; [assumption |]).
  exact (rejected_template_raises
           Sample.CC Sample.SOFTWARE Sample.HELPER Sample.LICENSE Sample.cmd
           Sample.config Sample.author true None None true
           (Sample.store_of Sample.bad_template) _ H1 H2 H3 H4).
Defined.

Lemma blank_texts_are_not_shown_witness :
  Sample.build Sample.blank_statement true false
  = (Ret (Sample.result_of (Sample.build Sample.blank_statement true false)),
     (Sample.build Sample.blank_statement true false).2)
  ∧ Sample.blank_statement !! u "personal_statement" = Some (VStr (u "   "))
  ∧ ∃ main,
      Sample.result_of (Sample.build Sample.blank_statement true false)
      = [main].
Proof.
  assert (Sample.build Sample.blank_statement true false
          = (Ret (Sample.result_of
                    (Sample.build Sample.blank_statement true false)),
             (Sample.build Sample.blank_statement true false).2)) as H1
    by (vm_compute; reflexivity).
  assert (resolve_license Sample.CC Sample.SOFTWARE Sample.config true
                          (Sample.store_of Sample.blank_statement)
          = (Ret Sample.resolved_custom,
             (resolve_license Sample.CC Sample.SOFTWARE Sample.config true
                              (Sample.store_of Sample.blank_statement)).2))
    as H2 by (vm_compute; reflexivity).
  split; [exact H1 |]. split; [vm_compute; reflexivity |].
  destruct (blank_texts_are_not_shown
              Sample.CC Sample.SOFTWARE Sample.HELPER Sample.LICENSE
              Sample.cmd Sample.config Sample.author true None None false
              (Sample.store_of Sample.blank_statement) _ _ _ _ H1 H2)
    as (main & rest & Hm & Hps & _).
  exists main. rewrite Hm. f_equal. apply Hps. vm_compute. reflexivity.
Defined.
